(** * FinancialAnalyzer (scripts/dataprocessing.py): embedding and properties

    The analyser keeps one pandas frame per symbol in [self.data] and runs
    every method as a loop "for each symbol: try body, on exception log and
    go on".  The embedding below has four layers:

    - [num]: a float64 cell with its IEEE special values (NaN, -inf, +inf)
      and the arithmetic on them.  Finite values are exact reals: binary64
      rounding, overflow and the sign of zero are outside this layer,
      everything else (NaN propagation, division by zero, inf - inf,
      0 * inf) is written out.  It carries the properties of structure:
      which rows are NaN, which columns are written, what is at most zero.
    - [B64]: the same series operations on binary64 itself (primitive
      floats), for the properties in which rounding or overflow decides:
      the division by a computed standard deviation of zero, the last
      cumulative return against Close[last] / Close[0] - 1, the drawdown of
      prices whose ratio overflows.
    - series and frames: a column is a [list num], a frame is an index and
      an ordered association list of named columns, with the pandas
      operations the script calls ([pct_change], [cumprod], [cummax],
      [rolling(..).mean()], [fillna(method='ffill')], [dropna], [set_index],
      [reset_index]).
    - the analyser: a state-and-exception monad over the frame being
      processed for the body of each [try], and a per-symbol loop over
      [gmap string DataFrame] for [self.data] and the returned dicts. *)

From Stdlib Require Import Reals Lra DecimalString.
From Stdlib Require DecimalNat DecimalFacts.
From Stdlib Require Floats.
From stdpp Require Import gmap strings list.

(* ================================================================== *)
(** * Part I: definitions *)
(* ================================================================== *)

(** ** float64 cells *)

Inductive num : Type :=
  | NaN
  | NegInf
  | PosInf
  | Fin (x : R).

Definition isnan (a : num) : bool :=
  match a with NaN => true | _ => false end.

Definition isinf (a : num) : bool :=
  match a with NegInf | PosInf => true | _ => false end.

(** Sign of a finite value. *)
Definition Rsgn (x : R) : comparison :=
  if Rlt_dec x 0 then Lt else if Rlt_dec 0 x then Gt else Eq.

Definition nneg (a : num) : num :=
  match a with
  | NaN => NaN
  | NegInf => PosInf
  | PosInf => NegInf
  | Fin x => Fin (- x)
  end.

Definition nadd (a b : num) : num :=
  match a, b with
  | NaN, _ | _, NaN => NaN
  | PosInf, NegInf | NegInf, PosInf => NaN
  | PosInf, _ | _, PosInf => PosInf
  | NegInf, _ | _, NegInf => NegInf
  | Fin x, Fin y => Fin (x + y)
  end.

Definition nsub (a b : num) : num := nadd a (nneg b).

(** An infinity scaled by a finite factor: 0 * inf is NaN. *)
Definition scale_inf (inf : num) (x : R) : num :=
  match Rsgn x with
  | Eq => NaN
  | Gt => inf
  | Lt => nneg inf
  end.

Definition nmul (a b : num) : num :=
  match a, b with
  | NaN, _ | _, NaN => NaN
  | Fin x, Fin y => Fin (x * y)
  | Fin x, inf => scale_inf inf x
  | inf, Fin y => scale_inf inf y
  | PosInf, PosInf | NegInf, NegInf => PosInf
  | _, _ => NegInf
  end.

(** numpy float64 division: a zero divisor does not raise, it gives an
    infinity of the sign of the dividend, or NaN for 0/0. *)
Definition ndiv (a b : num) : num :=
  match a, b with
  | NaN, _ | _, NaN => NaN
  | Fin x, Fin y =>
      match Rsgn y with
      | Eq => match Rsgn x with Eq => NaN | Gt => PosInf | Lt => NegInf end
      | _ => Fin (x / y)
      end
  | Fin _, _ => Fin 0
  | inf, Fin y => match Rsgn y with Lt => nneg inf | _ => inf end
  | _, _ => NaN
  end.

Definition nsqrt (a : num) : num :=
  match a with
  | NaN | NegInf => NaN
  | PosInf => PosInf
  | Fin x => if Rlt_dec x 0 then NaN else Fin (sqrt x)
  end.

(** [a <= b] as numpy compares floats: false as soon as a NaN is involved. *)
Definition nleb (a b : num) : bool :=
  match a, b with
  | NaN, _ | _, NaN => false
  | NegInf, _ | _, PosInf => true
  | _, NegInf | PosInf, _ => false
  | Fin x, Fin y => if Rle_dec x y then true else false
  end.

Definition nmax (a b : num) : num := if nleb a b then b else a.
Definition nmin (a b : num) : num := if nleb b a then b else a.

Definition of_nat (n : nat) : num := Fin (INR n).

(** ** Series: one column of float64 values *)

Abbreviation Series := (list num).

(** Values that are not NaN, in order ([skipna=True], the default of every
    pandas reduction the script uses). *)
Fixpoint valid (s : Series) : Series :=
  match s with
  | [] => []
  | a :: s' => if isnan a then valid s' else a :: valid s'
  end.

(** [Series.count()]: the number of values that are not NaN. *)
Definition count (s : Series) : nat := length (valid s).

Definition nsum (s : Series) : num := foldl nadd (Fin 0) s.

(** [fillna(method='ffill')]: a NaN takes the last value seen before it;
    leading NaNs stay. *)
Fixpoint ffill_from (last : num) (s : Series) : Series :=
  match s with
  | [] => []
  | a :: s' =>
      let b := if isnan a then last else a in
      b :: ffill_from b s'
  end.

Definition ffill (s : Series) : Series := ffill_from NaN s.

(** [shift(1)]: every value moves one row down, the first row is NaN and
    the last value falls off. *)
Definition shift (s : Series) : Series := take (length s) (NaN :: s).

(** [Series.pct_change()] with the defaults of the pandas versions that
    still accept [fillna(method=...)]: the series is forward-filled, then
    [data / data.shift(1) - 1]. *)
Definition day_return (a b : num) : num := nsub (ndiv a b) (Fin 1).

Definition pct_change (s : Series) : Series :=
  let data := ffill s in
  zip_with day_return data (shift data).

(** [cumprod()] and [cummax()] with [skipna=True]: a NaN row gives NaN and
    leaves the running value alone. *)
Fixpoint cumprod_from (acc : num) (s : Series) : Series :=
  match s with
  | [] => []
  | a :: s' =>
      if isnan a then NaN :: cumprod_from acc s'
      else let acc' := nmul acc a in acc' :: cumprod_from acc' s'
  end.

Definition cumprod (s : Series) : Series := cumprod_from (Fin 1) s.

Fixpoint cummax_from (acc : num) (s : Series) : Series :=
  match s with
  | [] => []
  | a :: s' =>
      if isnan a then NaN :: cummax_from acc s'
      else let acc' := nmax acc a in acc' :: cummax_from acc' s'
  end.

Definition cummax (s : Series) : Series := cummax_from NegInf s.

(** [Series.min()]: the least value that is not NaN, NaN when there is none. *)
Definition smin (s : Series) : num :=
  match valid s with
  | [] => NaN
  | a :: v => foldl nmin a v
  end.

(** [Series.mean()]: sum of the valid values over their number. *)
Definition mean (s : Series) : num :=
  let v := valid s in
  match v with
  | [] => NaN
  | _ => ndiv (nsum v) (of_nat (length v))
  end.

(** [Series.var()] and [Series.std()] with [ddof=1]: NaN unless at least two
    values are valid. *)
Definition var (s : Series) : num :=
  let v := valid s in
  if length v <=? 1 then NaN
  else
    let avg := ndiv (nsum v) (of_nat (length v)) in
    let sqr := (λ a, let d := nsub avg a in nmul d d) <$> v in
    ndiv (nsum sqr) (of_nat (length v - 1)).

Definition std (s : Series) : num := nsqrt (var s).

(** [1 + s] and [s - 1] with a scalar, [s1 - s2] row by row. *)
Definition sadd_scalar (c : num) (s : Series) : Series := nadd c <$> s.
Definition ssub_scalar (s : Series) (c : num) : Series := (λ a, nsub a c) <$> s.
Definition ssub (s1 s2 : Series) : Series := zip_with nsub s1 s2.

(** [rolling(window=w).mean()]: [min_periods] is the window size, so a row
    has a value only when its window is complete and free of NaN; the
    rolling code turns infinities into NaN before it aggregates. *)
Definition inf_to_nan (a : num) : num := if isinf a then NaN else a.

Definition window_at (w i : nat) (s : Series) : Series :=
  take w (drop (S i - w) s).

Definition rolling_mean (w : nat) (s : Series) : Series :=
  let vals := inf_to_nan <$> s in
  imap (λ i _,
          if S i <? w then NaN
          else
            let win := window_at w i vals in
            if forallb (λ a, negb (isnan a)) win
            then ndiv (nsum win) (of_nat w)
            else NaN) s.

(** ** Frames *)

(** The row index: its name, if it has one, and one label per row.  A frame
    fresh from [reset_index] has the unnamed labels 0, 1, 2, ... *)
Record Index : Type := mkIndex {
  idx_name : option string;
  idx_labels : Series
}.

Definition range_index (n : nat) : Index :=
  mkIndex None (of_nat <$> seq 0 n).

(** A DataFrame: the index and the columns in their order. *)
Record DataFrame : Type := mkFrame {
  index : Index;
  columns : list (string * Series)
}.

Definition nrows (df : DataFrame) : nat := length (idx_labels (index df)).

(** Every column has one value per row. *)
Definition wf_frame (df : DataFrame) : Prop :=
  Forall (λ p, length p.2 = nrows df) (columns df).

Fixpoint col_lookup (name : string) (cols : list (string * Series))
  : option Series :=
  match cols with
  | [] => None
  | (n, c) :: cols' => if decide (n = name) then Some c else col_lookup name cols'
  end.

(** [df[name] = c]: an existing column is replaced where it stands, a new
    one goes last. *)
Fixpoint col_assign (name : string) (c : Series) (cols : list (string * Series))
  : list (string * Series) :=
  match cols with
  | [] => [(name, c)]
  | (n, c0) :: cols' =>
      if decide (n = name) then (n, c) :: cols'
      else (n, c0) :: col_assign name c cols'
  end.

Definition col_remove (name : string) (cols : list (string * Series))
  : list (string * Series) :=
  filter (λ p, p.1 ≠ name) cols.

Definition col_names (df : DataFrame) : list string := (columns df).*1.

(** Rows of a column selected by a boolean mask. *)
Fixpoint keep_rows {A : Type} (mask : list bool) (l : list A) : list A :=
  match mask, l with
  | b :: mask', a :: l' =>
      if b then a :: keep_rows mask' l' else keep_rows mask' l'
  | _, _ => []
  end.

(** Row [i] has a value in every column. *)
Definition row_complete (cols : list (string * Series)) (i : nat) : bool :=
  forallb (λ p, negb (isnan (default NaN (p.2 !! i)))) cols.

Definition dropna_mask (df : DataFrame) : list bool :=
  row_complete (columns df) <$> seq 0 (nrows df).

(** [df.fillna(method='ffill')]: every column is forward-filled, the index
    is not touched. *)
Definition fillna_ffill_frame (df : DataFrame) : DataFrame :=
  mkFrame (index df) ((λ p, (p.1, ffill p.2)) <$> columns df).

(** [df.dropna()]: a row goes as soon as one of its columns is NaN; the
    labels of the rows that stay are kept. *)
Definition dropna_frame (df : DataFrame) : DataFrame :=
  let mask := dropna_mask df in
  mkFrame (mkIndex (idx_name (index df)) (keep_rows mask (idx_labels (index df))))
          ((λ p, (p.1, keep_rows mask p.2)) <$> columns df).

(** [pd.to_datetime] on the Date column that [reset_index] produced from the
    provider's datetime index: the values are datetimes already. *)
Definition to_datetime (s : Series) : Series := s.

(** The column name [f'{window}-Day MA']. *)
Definition ma_name (window : nat) : string :=
  NilZero.string_of_uint (Nat.to_uint window) +:+ "-Day MA".

(** ** The body of a [try]: state and exceptions *)

Inductive exn : Type :=
  | KeyError (key : string)
  | ValueError (msg : string).

Inductive result (A : Type) : Type :=
  | Ok (a : A)
  | Raise (e : exn).
Arguments Ok {A} a.
Arguments Raise {A} e.

Definition is_ok {A : Type} (r : result A) : option A :=
  match r with Ok a => Some a | Raise _ => None end.

(** A computation on the frame of the current symbol.  The frame is updated
    in place, so what was written before an exception stays written. *)
Definition M (A : Type) : Type := DataFrame → DataFrame * result A.

Definition ret {A : Type} (a : A) : M A := λ df, (df, Ok a).

Definition raise {A : Type} (e : exn) : M A := λ df, (df, Raise e).

Definition bind {A B : Type} (m : M A) (k : A → M B) : M B :=
  λ df, match m df with
        | (df', Ok a) => k a df'
        | (df', Raise e) => (df', Raise e)
        end.

Notation "x <- m ;; k" := (bind m (λ x, k))
  (at level 100, m at next level, right associativity).
Notation "m ;; k" := (bind m (λ _, k))
  (at level 100, right associativity).

(** A call into a library that works on values and may raise. *)
Definition call {A : Type} (r : result A) : M A := λ df, (df, r).

(** [df[name]] *)
Definition getitem (name : string) : M Series :=
  λ df, match col_lookup name (columns df) with
        | Some c => (df, Ok c)
        | None => (df, Raise (KeyError name))
        end.

(** [df[name] = c] *)
Definition setitem (name : string) (c : Series) : M unit :=
  λ df, (mkFrame (index df) (col_assign name c (columns df)), Ok tt).

(** [df.fillna(method='ffill', inplace=True)] *)
Definition fillna_ffill : M unit := λ df, (fillna_ffill_frame df, Ok tt).

(** [df.dropna(inplace=True)] *)
Definition dropna : M unit := λ df, (dropna_frame df, Ok tt).

(** [df.set_index(name, inplace=True)]: the column becomes the index and
    leaves the columns; the old index is gone. *)
Definition set_index (name : string) : M unit :=
  λ df, match col_lookup name (columns df) with
        | Some c => (mkFrame (mkIndex (Some name) c) (col_remove name (columns df)),
                     Ok tt)
        | None => (df, Raise (KeyError name))
        end.

(** [df.reset_index(inplace=True)]: the index becomes the first column,
    under its name or under 'index', and the rows are numbered afresh. *)
Definition reset_index : M unit :=
  λ df,
    let name :=
      match idx_name (index df) with
      | Some n => n
      | None => match col_lookup "index" (columns df) with
                | Some _ => "level_0"
                | None => "index"
                end
      end in
    match col_lookup name (columns df) with
    | Some _ => (df, Raise (ValueError ("cannot insert " +:+ name +:+ ", already exists")))
    | None => (mkFrame (range_index (nrows df))
                       ((name, idx_labels (index df)) :: columns df),
               Ok tt)
    end.

(** ** The analyser *)

(** [self.data] maps each symbol to its frame: a [gmap string DataFrame].
    A method is a function from that store to the store after the call and
    the dict it returns. *)

(** [for symbol, df in self.data.items(): try: body except: log]: the
    frame is updated in place whether the body ends or raises; the value of
    a body that ends is entered in the dict under the symbol. *)
Definition try_symbol {A : Type} (body : M A) (symbol : string) (df : DataFrame)
    (acc : gmap string DataFrame * gmap string A)
  : gmap string DataFrame * gmap string A :=
  match body df with
  | (df', Ok v) => (<[symbol := df']> acc.1, <[symbol := v]> acc.2)
  | (df', Raise _) => (<[symbol := df']> acc.1, acc.2)
  end.

Definition for_each_symbol {A : Type} (body : M A) (data : gmap string DataFrame)
  : gmap string DataFrame * gmap string A :=
  map_fold (try_symbol body) (data, ∅) data.

(** [clean_data] *)
Definition clean_body : M unit :=
  d <- getitem "Date" ;;
  setitem "Date" (to_datetime d) ;;
  fillna_ffill ;;
  dropna.

Definition clean_data (data : gmap string DataFrame) : gmap string DataFrame :=
  (for_each_symbol clean_body data).1.

(** [calculate_volatility] *)
Definition volatility_body : M num :=
  c <- getitem "Close" ;;
  setitem "Daily Return" (pct_change c) ;;
  r <- getitem "Daily Return" ;;
  ret (std r).

Definition calculate_volatility (data : gmap string DataFrame)
  : gmap string DataFrame * gmap string num :=
  for_each_symbol volatility_body data.

(** [(1 + r).cumprod() - 1] *)
Definition cumulative_return (r : Series) : Series :=
  ssub_scalar (cumprod (sadd_scalar (Fin 1) r)) (Fin 1).

(** [plot_cumulative_returns]: the two derived columns are stored, then
    Date and Cumulative Return are read for the chart.  Drawing itself is
    left out. *)
Definition plot_cumulative_returns_body : M unit :=
  c <- getitem "Close" ;;
  setitem "Daily Return" (pct_change c) ;;
  r <- getitem "Daily Return" ;;
  setitem "Cumulative Return" (cumulative_return r) ;;
  _ <- getitem "Date" ;;
  _ <- getitem "Cumulative Return" ;;
  ret tt.

Definition plot_cumulative_returns (data : gmap string DataFrame)
  : gmap string DataFrame :=
  (for_each_symbol plot_cumulative_returns_body data).1.

(** [calculate_moving_average] *)
Definition moving_average_body (window : nat) : M unit :=
  c <- getitem "Close" ;;
  setitem (ma_name window) (rolling_mean window c).

Definition calculate_moving_average (window : nat) (data : gmap string DataFrame)
  : gmap string DataFrame :=
  (for_each_symbol (moving_average_body window) data).1.

(** [plot_moving_average]: reads Date, Close and the column of the 50-day
    window. *)
Definition plot_moving_average_body : M unit :=
  _ <- getitem "Date" ;;
  _ <- getitem "Close" ;;
  _ <- getitem "Date" ;;
  _ <- getitem "50-Day MA" ;;
  ret tt.

(** [calculate_sharpe_ratio] *)
Definition sharpe_ratio_body : M num :=
  c <- getitem "Close" ;;
  setitem "Daily Return" (pct_change c) ;;
  r1 <- getitem "Daily Return" ;;
  r2 <- getitem "Daily Return" ;;
  ret (nmul (ndiv (mean r1) (std r2)) (nsqrt (Fin 252))).

Definition calculate_sharpe_ratio (data : gmap string DataFrame)
  : gmap string DataFrame * gmap string num :=
  for_each_symbol sharpe_ratio_body data.

(** [calculate_max_drawdown] *)
Definition max_drawdown_body : M num :=
  c <- getitem "Close" ;;
  setitem "Cumulative Return" (cumulative_return (pct_change c)) ;;
  cr <- getitem "Cumulative Return" ;;
  setitem "Peak" (cummax cr) ;;
  cr' <- getitem "Cumulative Return" ;;
  pk <- getitem "Peak" ;;
  setitem "Drawdown" (ssub cr' pk) ;;
  dd <- getitem "Drawdown" ;;
  ret (smin dd).

Definition calculate_max_drawdown (data : gmap string DataFrame)
  : gmap string DataFrame * gmap string num :=
  for_each_symbol max_drawdown_body data.

(** [decompose_trends].  [seasonal_decompose] and the drawing of its result
    belong to statsmodels and matplotlib: they are taken as they come, as
    functions that return or raise. *)
Section Decompose.
Context {Decomposition : Type}.
Variable seasonal_decompose : Series → result Decomposition.
Variable plot : Decomposition → result unit.

(** The body up to [decompositions[symbol] = decomposition]. *)
Definition decompose_body : M Decomposition :=
  set_index "Date" ;;
  c <- getitem "Close" ;;
  decomposition <- call (seasonal_decompose c) ;;
  call (plot decomposition) ;;
  ret decomposition.

(** The result is entered in the dict before [reset_index] runs, so it
    stays there whatever [reset_index] does. *)
Definition decompose_symbol (symbol : string) (df : DataFrame)
    (acc : gmap string DataFrame * gmap string Decomposition)
  : gmap string DataFrame * gmap string Decomposition :=
  match decompose_body df with
  | (df', Ok d) => (<[symbol := (reset_index df').1]> acc.1, <[symbol := d]> acc.2)
  | (df', Raise _) => (<[symbol := df']> acc.1, acc.2)
  end.

Definition decompose_trends (data : gmap string DataFrame)
  : gmap string DataFrame * gmap string Decomposition :=
  map_fold decompose_symbol (data, ∅) data.
End Decompose.

(** ** Vocabulary of the properties *)

(** The three methods that return one scalar per symbol. *)
Inductive statistic : Type := Volatility | SharpeRatio | MaxDrawdown.

Definition stat_body (st : statistic) : M num :=
  match st with
  | Volatility => volatility_body
  | SharpeRatio => sharpe_ratio_body
  | MaxDrawdown => max_drawdown_body
  end.

Definition calculate (st : statistic) (data : gmap string DataFrame)
  : gmap string DataFrame * gmap string num :=
  match st with
  | Volatility => calculate_volatility data
  | SharpeRatio => calculate_sharpe_ratio data
  | MaxDrawdown => calculate_max_drawdown data
  end.

(** The columns a statistic stores its intermediate series in. *)
Definition derived_columns (st : statistic) : list string :=
  match st with
  | Volatility | SharpeRatio => ["Daily Return"]
  | MaxDrawdown => ["Cumulative Return"; "Peak"; "Drawdown"]
  end.

(** A frame without missing values. *)
Definition frame_clean (df : DataFrame) : Prop :=
  Forall (λ p, Forall (λ a, isnan a = false) p.2) (columns df).

(** A close that is a price: finite and not zero. *)
Definition is_price (a : num) : Prop :=
  match a with Fin x => x ≠ 0%R | _ => False end.

(** [a <= 0] for a cell. *)
Definition nonpositive (a : num) : Prop :=
  match a with
  | Fin x => (x <= 0)%R
  | NegInf => True
  | _ => False
  end.

(** ** Sample stores *)

(** A frame as [fetch_data] leaves it, cut down to the two columns the
    analyser reads: the dates (as day numbers) and the closes. *)
Definition price_frame (closes : Series) : DataFrame :=
  mkFrame (range_index (length closes))
          [("Date", of_nat <$> seq 0 (length closes)); ("Close", closes)].

(** A frame without a Close column. *)
Definition no_close_frame : DataFrame :=
  mkFrame (range_index 2) [("Date", of_nat <$> seq 0 2)].

Definition growth_closes : Series := [Fin 100; Fin 110; Fin 121].

Definition two_symbols : gmap string DataFrame :=
  {[ "BAD" := no_close_frame; "OK" := price_frame growth_closes ]}.

Definition one_symbol : gmap string DataFrame :=
  {[ "OK" := price_frame growth_closes ]}.

(** Closes that double every day: all daily returns are equal. *)
Definition doubling_closes : Series := [Fin 1; Fin 2; Fin 4].

Definition doubling_symbol : gmap string DataFrame :=
  {[ "DBL" := price_frame doubling_closes ]}.

(** Three days with a gap in the closes on the second day and no volume on
    the first. *)
Definition gap_frame : DataFrame :=
  mkFrame (range_index 3)
          [("Date", of_nat <$> seq 0 3);
           ("Close", [Fin 100; NaN; Fin 102]);
           ("Volume", [NaN; Fin 5; Fin 6])].

Definition gap_symbol : gmap string DataFrame := {[ "GAP" := gap_frame ]}.

(** A stand-in for [seasonal_decompose] that has only its length check: a
    series shorter than two periods of 252 observations is refused, any
    other gets an empty result; and a drawing routine that never fails. *)
Definition two_cycles_only (c : Series) : result unit :=
  if length c <? 2 * 252
  then Raise (ValueError "x must have 2 complete cycles requires 504 observations")
  else Ok tt.

Definition plot_nothing (d : unit) : result unit := Ok tt.

(** A symbol fetched for a single day. *)
Definition single_day : gmap string DataFrame :=
  {[ "DAY" := price_frame [Fin 100] ]}.

(** ** The remaining methods *)

(** [__init__]: the analyser starts with no symbol. *)
Definition init : gmap string DataFrame := ∅.

(** [fetch_data].  [yf.download(symbol, start=..., end=...)] is the market
    data provider: it is taken as it comes, as a function that returns a
    frame or raises. *)
Section Fetch.
Variable download : string → string → string → result DataFrame.

(** One turn of the loop: the frame is entered under the symbol only when
    both the download and [reset_index] ended. *)
Definition fetch_symbol (start_date end_date : string)
    (data : gmap string DataFrame) (symbol : string) : gmap string DataFrame :=
  match download symbol start_date end_date with
  | Ok df =>
      match reset_index df with
      | (df', Ok _) => <[symbol := df']> data
      | (_, Raise _) => data
      end
  | Raise _ => data
  end.

Definition fetch_data (symbols : list string) (start_date end_date : string)
    (data : gmap string DataFrame) : gmap string DataFrame :=
  foldl (fetch_symbol start_date end_date) data symbols.

(** The frame that a turn of the loop stores for a symbol, if it stores
    one. *)
Definition fetched (symbol start_date end_date : string) : option DataFrame :=
  match download symbol start_date end_date with
  | Ok df => match reset_index df with
             | (df', Ok _) => Some df'
             | (_, Raise _) => None
             end
  | Raise _ => None
  end.
End Fetch.

(** [plot_price_histogram]: reads Close for the histogram; drawing is left
    out. *)
Definition plot_price_histogram_body : M unit :=
  _ <- getitem "Close" ;;
  ret tt.

Definition plot_price_histogram (data : gmap string DataFrame)
  : gmap string DataFrame :=
  (for_each_symbol plot_price_histogram_body data).1.

(** [plot_moving_average] *)
Definition plot_moving_average (data : gmap string DataFrame)
  : gmap string DataFrame :=
  (for_each_symbol plot_moving_average_body data).1.

(** A provider that knows one symbol: it answers with two days of closes
    under an index named Date, and raises for every other symbol. *)
Definition provider_frame : DataFrame :=
  mkFrame (mkIndex (Some "Date") [of_nat 0; of_nat 1])
          [("Close", [Fin 100; Fin 110])].

Definition one_symbol_provider (symbol start_date end_date : string)
  : result DataFrame :=
  if decide (symbol = "OK") then Ok provider_frame
  else Raise (ValueError "No data found, symbol may be delisted").

(** A store whose one frame has Date as its index, not as a column. *)
Definition indexed_symbol : gmap string DataFrame :=
  {[ "IDX" := provider_frame ]}.

(** The value of a statistic, as a function of the Close column. *)
Definition stat_value (st : statistic) (c : Series) : num :=
  match st with
  | Volatility => std (pct_change c)
  | SharpeRatio =>
      nmul (ndiv (mean (pct_change c)) (std (pct_change c))) (nsqrt (Fin 252))
  | MaxDrawdown =>
      let cr := cumulative_return (pct_change c) in smin (ssub cr (cummax cr))
  end.

(** Two days, the second at half the price of the first. *)
Definition falling_symbol : gmap string DataFrame :=
  {[ "FALL" := price_frame [Fin 100; Fin 50] ]}.

(** Three days at the same price. *)
Definition flat_symbol : gmap string DataFrame :=
  {[ "FLAT" := price_frame (replicate 3 (Fin 100)) ]}.

(** Two years of trading days at the same price: long enough for the
    length check of the decomposition. *)
Definition two_years : Series := replicate 504 (Fin 100).

Definition two_years_symbol : gmap string DataFrame :=
  {[ "LONG" := price_frame two_years ]}.

(** The sum of a window of finite values. *)
Definition rsum (xs : list R) : R := foldl Rplus 0%R xs.

(** ** The arithmetic in binary64 *)

(** The cells above carry exact reals.  Where a property turns on rounding
    or overflow, the same pandas calls are read here over the machine's
    binary64 numbers: the returns, the running product, the running
    maximum and the minimum involve no summation, so their binary64 value
    is fixed by the source line. *)
Module B64.
Import PrimFloat.
Local Open Scope float_scope.

(** [np.sqrt(252)] *)
Definition sqrt_252 : float := sqrt 252.

(** [mean / std * np.sqrt(252)] on the two computed statistics. *)
Definition sharpe_of (m sd : float) : float := m / sd * sqrt_252.


Definition day_return (a b : float) : float := a / b - 1.

Fixpoint ffill_from (last : float) (s : list float) : list float :=
  match s with
  | [] => []
  | a :: s' =>
      let b := if is_nan a then last else a in
      b :: ffill_from b s'
  end.

Definition ffill (s : list float) : list float := ffill_from nan s.

Definition shift (s : list float) : list float := take (length s) (nan :: s).

Definition pct_change (s : list float) : list float :=
  let data := ffill s in
  zip_with day_return data (shift data).

Fixpoint cumprod_from (acc : float) (s : list float) : list float :=
  match s with
  | [] => []
  | a :: s' =>
      if is_nan a then nan :: cumprod_from acc s'
      else let acc' := acc * a in acc' :: cumprod_from acc' s'
  end.

Definition cumprod (s : list float) : list float := cumprod_from 1 s.

Definition cumulative_return (r : list float) : list float :=
  (λ a, a - 1) <$> cumprod ((λ a, 1 + a) <$> r).

Definition fmax (a b : float) : float := if a <=? b then b else a.
Definition fmin (a b : float) : float := if b <=? a then b else a.

Fixpoint cummax_from (acc : float) (s : list float) : list float :=
  match s with
  | [] => []
  | a :: s' =>
      if is_nan a then nan :: cummax_from acc s'
      else let acc' := fmax acc a in acc' :: cummax_from acc' s'
  end.

Definition cummax (s : list float) : list float := cummax_from neg_infinity s.

Definition ssub (s1 s2 : list float) : list float := zip_with sub s1 s2.

Fixpoint valid (s : list float) : list float :=
  match s with
  | [] => []
  | a :: s' => if is_nan a then valid s' else a :: valid s'
  end.

Definition smin (s : list float) : float :=
  match valid s with
  | [] => nan
  | a :: v => foldl fmin a v
  end.

(** The value [calculate_max_drawdown] returns for a Close column. *)
Definition max_drawdown (c : list float) : float :=
  let cr := cumulative_return (pct_change c) in
  smin (ssub cr (cummax cr)).


Definition of_nat (n : nat) : float := of_uint63 (Uint63.of_Z (Z.of_nat n)).

Definition nsum (s : list float) : float := foldl add 0 s.

(** [Series.mean()], [Series.var()] and [Series.std()] as in the model of
    the reals above, every operation rounded. *)
Definition mean (s : list float) : float :=
  let v := valid s in
  match v with
  | [] => nan
  | _ => nsum v / of_nat (length v)
  end.

Definition var (s : list float) : float :=
  let v := valid s in
  if (length v <=? 1)%nat then nan
  else
    let avg := nsum v / of_nat (length v) in
    let sqr := (λ a, let d := avg - a in d * d) <$> v in
    nsum sqr / of_nat (length v - 1).

Definition std (s : list float) : float := sqrt (var s).

(** The value [calculate_sharpe_ratio] returns for a Close column. *)
Definition sharpe_ratio (c : list float) : float :=
  let r := pct_change c in
  sharpe_of (mean r) (std r).

(** The class of a value. *)
Definition is_nan64 (x : float) : Prop :=
  FloatOps.Prim2SF x = SpecFloat.S754_nan.

(** Sample closes: the growth of the specification's scenario, a fall by
    half, and two prices whose ratio is beyond the largest binary64
    number. *)
Definition growth_closes : list float := [100; 110; 121].
Definition single_close : list float := [100].
Definition falling_closes : list float := [100; 50].
Definition overflowing_closes : list float := [0x1p-600; 0x1p+600].
(** Closes that double, and closes that fall to a third, day after day. *)
Definition doubling_closes : list float := [1; 2; 4].
Definition thirds_closes : list float := [27; 9; 3; 1].
Definition thirds_return : float := 9 / 27 - 1.
End B64.

(** ** The statistics in the words of their definition *)



(** ** Cleaning in the words of its definition *)

(** The last value of the column at or before row [i], NaN when there is
    none yet: what a forward fill leaves in row [i]. *)
Definition last_valid (s : Series) (i : nat) : num :=
  default NaN (last (valid (take (S i) s))).

(** Row [i] has had a value in every column. *)
Definition row_survives (cols : list (string * Series)) (i : nat) : bool :=
  forallb (λ p, negb (isnan (last_valid p.2 i))) cols.

(** The rows of an [n]-row frame that survive, in order. *)
Definition surviving_rows (cols : list (string * Series)) (n : nat) : list nat :=
  List.filter (row_survives cols) (seq 0 n).

(* ================================================================== *)
(** * Part II: properties *)
(* ================================================================== *)

(** ** The per-symbol loop *)

Section Loop.
Context {A : Type}.
Variable step : string → DataFrame
  → gmap string DataFrame * gmap string A
  → gmap string DataFrame * gmap string A.
Variable after : DataFrame → DataFrame.
Variable value : DataFrame → option A.
Hypothesis step_eq : ∀ symbol df acc,
  step symbol df acc =
    (<[symbol := after df]> acc.1,
     match value df with Some v => <[symbol := v]> acc.2 | None => acc.2 end).

Lemma loop_lookup (store : gmap string DataFrame) (m : gmap string DataFrame)
    (k : string) :
  (map_fold step (store, ∅) m).1 !! k
    = match m !! k with Some df => Some (after df) | None => store !! k end
  ∧ (map_fold step (store, ∅) m).2 !! k = m !! k ≫= value.
Proof.
  revert k.
  apply (map_fold_weak_ind
           (λ r m, ∀ k,
              r.1 !! k = match m !! k with
                         | Some df => Some (after df)
                         | None => store !! k
                         end
              ∧ r.2 !! k = m !! k ≫= value)).
  - intros k. by rewrite !lookup_empty.
  - intros i x m' r Hi IH k. rewrite step_eq. simpl.
    destruct (decide (i = k)) as [->|Hne].
    + rewrite !lookup_insert_eq. split; [done|].
      simpl. destruct (value x) as [v|].
      * by rewrite lookup_insert_eq.
      * destruct (IH k) as [_ ->]. by rewrite Hi.
    + rewrite !lookup_insert_ne by done.
      destruct (IH k) as [IH1 IH2]. split; [done|].
      destruct (value x); [by rewrite lookup_insert_ne|done].
Qed.
End Loop.

Lemma try_symbol_eq {A : Type} (body : M A) symbol df acc :
  try_symbol body symbol df acc =
    (<[symbol := (body df).1]> acc.1,
     match is_ok (body df).2 with
     | Some v => <[symbol := v]> acc.2
     | None => acc.2
     end).
Proof. unfold try_symbol. by destruct (body df) as [df' [v|e]]. Qed.

(** After the loop every frame is the one its body left behind. *)
Lemma for_each_symbol_store {A : Type} (body : M A) data k :
  (for_each_symbol body data).1 !! k = (λ df, (body df).1) <$> data !! k.
Proof.
  unfold for_each_symbol.
  destruct (loop_lookup _ _ _ (try_symbol_eq body) data data k) as [-> _].
  by destruct (data !! k).
Qed.

(** The returned dict has exactly the values of the bodies that ended. *)
Lemma for_each_symbol_result {A : Type} (body : M A) data k :
  (for_each_symbol body data).2 !! k = data !! k ≫= (λ df, is_ok (body df).2).
Proof.
  unfold for_each_symbol.
  by destruct (loop_lookup _ _ _ (try_symbol_eq body) data data k) as [_ ->].
Qed.

Lemma calculate_result st data k :
  (calculate st data).2 !! k = data !! k ≫= (λ df, is_ok (stat_body st df).2).
Proof. destruct st; apply for_each_symbol_result. Qed.

Lemma calculate_store st data k :
  (calculate st data).1 !! k = (λ df, (stat_body st df).1) <$> data !! k.
Proof. destruct st; apply for_each_symbol_store. Qed.

(** ** Isolation of failures *)

(** C1. For volatility, Sharpe ratio and max drawdown alike: when the body
    raises for one symbol, that symbol has no entry in the returned dict,
    and every other symbol gets the value its own frame gives, the same
    value as if the failing symbol had not been in the store. *)
Theorem statistic_failure_is_isolated
    (st : statistic) (data : gmap string DataFrame)
    (s : string) (df : DataFrame) (e : exn) :
  data !! s = Some df →
  (stat_body st df).2 = Raise e →
  (calculate st data).2 !! s = None
  ∧ ∀ s' df', s' ≠ s → data !! s' = Some df' →
      (calculate st data).2 !! s' = is_ok (stat_body st df').2
      ∧ (calculate st data).2 !! s' = (calculate st (delete s data)).2 !! s'.
Proof.
  intros Hs Hraise. split.
  - rewrite calculate_result, Hs. simpl. by rewrite Hraise.
  - intros s' df' Hne Hs'. rewrite !calculate_result.
    rewrite lookup_delete_ne by done. by rewrite Hs'.
Qed.

Lemma statistic_failure_is_isolated_witness :
  two_symbols !! "BAD" = Some no_close_frame
  ∧ (stat_body Volatility no_close_frame).2 = Raise (KeyError "Close")
  ∧ (calculate Volatility two_symbols).2 !! "BAD" = None
  ∧ ∀ s' df', s' ≠ "BAD" → two_symbols !! s' = Some df' →
      (calculate Volatility two_symbols).2 !! s' = is_ok (stat_body Volatility df').2
      ∧ (calculate Volatility two_symbols).2 !! s'
        = (calculate Volatility (delete "BAD" two_symbols)).2 !! s'.
Proof.
  split; [reflexivity|]. split; [reflexivity|].
  apply (statistic_failure_is_isolated Volatility two_symbols "BAD"
           no_close_frame (KeyError "Close")); reflexivity.
Defined.

(** ** Columns *)

Lemma col_lookup_assign_eq name c cols :
  col_lookup name (col_assign name c cols) = Some c.
Proof.
  induction cols as [|[n c0] cols IH]; simpl.
  - by rewrite decide_True.
  - destruct (decide (n = name)) as [->|Hne]; simpl.
    + by rewrite decide_True.
    + by rewrite decide_False.
Qed.

Lemma col_lookup_assign_ne name name' c cols :
  name ≠ name' →
  col_lookup name' (col_assign name c cols) = col_lookup name' cols.
Proof.
  intros Hne. induction cols as [|[n c0] cols IH]; simpl.
  - by rewrite decide_False.
  - destruct (decide (n = name)) as [->|Hn]; simpl.
    + by rewrite !decide_False.
    + by rewrite IH.
Qed.

Lemma col_lookup_remove name cols :
  col_lookup name (col_remove name cols) = None.
Proof.
  unfold col_remove. induction cols as [|[n c0] cols IH]; [done|].
  rewrite filter_cons. simpl. destruct (decide (n ≠ name)) as [Hn|Hn]; simpl.
  - by rewrite decide_False.
  - done.
Qed.

Lemma col_lookup_remove_ne name name' cols :
  name ≠ name' →
  col_lookup name' (col_remove name cols) = col_lookup name' cols.
Proof.
  intros Hne. unfold col_remove. induction cols as [|[n c0] cols IH]; [done|].
  rewrite filter_cons. simpl. destruct (decide (n ≠ name)) as [Hn|Hn]; simpl.
  - by rewrite IH.
  - apply dec_stable in Hn. subst n. by rewrite decide_False.
Qed.

(** ** What each body does to a frame *)

Ltac run_body :=
  unfold bind, getitem, setitem, ret, call; simpl;
  repeat (rewrite ?col_lookup_assign_eq; rewrite ?col_lookup_assign_ne by done;
          simpl).

Lemma volatility_body_ok df c :
  col_lookup "Close" (columns df) = Some c →
  volatility_body df =
    (mkFrame (index df) (col_assign "Daily Return" (pct_change c) (columns df)),
     Ok (std (pct_change c))).
Proof. intros H. unfold volatility_body. run_body. rewrite H. by run_body. Qed.

Lemma sharpe_ratio_body_ok df c :
  col_lookup "Close" (columns df) = Some c →
  sharpe_ratio_body df =
    (mkFrame (index df) (col_assign "Daily Return" (pct_change c) (columns df)),
     Ok (nmul (ndiv (mean (pct_change c)) (std (pct_change c))) (nsqrt (Fin 252)))).
Proof. intros H. unfold sharpe_ratio_body. run_body. rewrite H. by run_body. Qed.

Lemma max_drawdown_body_ok df c :
  col_lookup "Close" (columns df) = Some c →
  let cr := cumulative_return (pct_change c) in
  max_drawdown_body df =
    (mkFrame (index df)
       (col_assign "Drawdown" (ssub cr (cummax cr))
          (col_assign "Peak" (cummax cr)
             (col_assign "Cumulative Return" cr (columns df)))),
     Ok (smin (ssub cr (cummax cr)))).
Proof. intros H. unfold max_drawdown_body. run_body. rewrite H. by run_body. Qed.

Lemma moving_average_body_ok window df c :
  col_lookup "Close" (columns df) = Some c →
  moving_average_body window df =
    (mkFrame (index df) (col_assign (ma_name window) (rolling_mean window c) (columns df)),
     Ok tt).
Proof. intros H. unfold moving_average_body. run_body. by rewrite H. Qed.

(** Without a Close column the first statement raises and nothing is
    written. *)
Lemma stat_body_no_close st df :
  col_lookup "Close" (columns df) = None →
  stat_body st df = (df, Raise (KeyError "Close")).
Proof.
  intros H. destruct st; simpl;
    [unfold volatility_body|unfold sharpe_ratio_body|unfold max_drawdown_body];
    unfold bind, getitem; by rewrite H.
Qed.

(** ** Effect of the statistics on the stored frames *)

(** C2, as the specification states it: volatility leaves the stored frame
    as it was.  It does not: the daily returns are stored as a third column
    of the frame. *)
Lemma statistics_store_columns_counterexample :
  col_names <$> (calculate Volatility one_symbol).1 !! "OK"
    = Some ["Date"; "Close"; "Daily Return"]
  ∧ (calculate Volatility one_symbol).1 ≠ one_symbol.
Proof.
  assert (col_names <$> (calculate Volatility one_symbol).1 !! "OK"
          = Some ["Date"; "Close"; "Daily Return"]) as Hcols.
  { rewrite calculate_store. reflexivity. }
  split; [exact Hcols|].
  intros Heq. rewrite Heq in Hcols. discriminate Hcols.
Qed.

(** C2, amended.  A statistic changes neither the index nor any column
    outside its own derived columns (so Close keeps its values), and a
    frame without Close is left as it was; but on a frame with a Close
    column the derived columns are in the stored frame afterwards: Daily
    Return for volatility and Sharpe ratio, Cumulative Return, Peak and
    Drawdown for max drawdown.  The moving average likewise writes its
    [W]-Day MA column and nothing else. *)
Theorem statistics_frame_effect
    (st : statistic) (window : nat) (data : gmap string DataFrame)
    (s : string) (df : DataFrame) :
  data !! s = Some df →
  ∃ df' df'',
    (calculate st data).1 !! s = Some df'
    ∧ index df' = index df
    ∧ (∀ name, name ∉ derived_columns st →
         col_lookup name (columns df') = col_lookup name (columns df))
    ∧ (∀ c, col_lookup "Close" (columns df) = Some c →
         ∀ name, name ∈ derived_columns st →
           is_Some (col_lookup name (columns df')))
    ∧ (col_lookup "Close" (columns df) = None → df' = df)
    ∧ calculate_moving_average window data !! s = Some df''
    ∧ index df'' = index df
    ∧ (∀ name, name ≠ ma_name window →
         col_lookup name (columns df'') = col_lookup name (columns df))
    ∧ (∀ c, col_lookup "Close" (columns df) = Some c →
         col_lookup (ma_name window) (columns df'')
           = Some (rolling_mean window c)).
Proof.
  intros Hs.
  exists (stat_body st df).1, (moving_average_body window df).1.
  split; [by rewrite calculate_store, Hs|].
  assert (calculate_moving_average window data !! s
          = Some (moving_average_body window df).1) as Hma.
  { unfold calculate_moving_average. by rewrite for_each_symbol_store, Hs. }
  destruct (col_lookup "Close" (columns df)) as [c|] eqn:Hc.
  - rewrite (moving_average_body_ok window df c Hc) in Hma |- *. simpl in Hma |- *.
    assert (∀ name, name ≠ ma_name window →
              col_lookup name
                (col_assign (ma_name window) (rolling_mean window c) (columns df))
              = col_lookup name (columns df)) as Hother.
    { intros name Hn. by apply col_lookup_assign_ne. }
    assert (∀ c0, Some c = Some c0 →
              col_lookup (ma_name window)
                (col_assign (ma_name window) (rolling_mean window c) (columns df))
              = Some (rolling_mean window c0)) as Hnew.
    { intros c0 [= <-]. apply col_lookup_assign_eq. }
    destruct st; simpl.
    + rewrite (volatility_body_ok df c Hc). simpl.
      repeat split; try done.
      * intros name Hn. apply col_lookup_assign_ne. set_solver.
      * intros c0 _ name Hn. apply list_elem_of_singleton in Hn as ->.
        rewrite col_lookup_assign_eq. eauto.
    + rewrite (sharpe_ratio_body_ok df c Hc). simpl.
      repeat split; try done.
      * intros name Hn. apply col_lookup_assign_ne. set_solver.
      * intros c0 _ name Hn. apply list_elem_of_singleton in Hn as ->.
        rewrite col_lookup_assign_eq. eauto.
    + rewrite (max_drawdown_body_ok df c Hc). simpl.
      repeat split; try done.
      * intros name Hn. rewrite !col_lookup_assign_ne; set_solver.
      * intros c0 _ name Hn.
        repeat (apply elem_of_cons in Hn as [->|Hn]);
          [run_body; eauto ..|by apply not_elem_of_nil in Hn].
  - rewrite (stat_body_no_close st df Hc). simpl.
    assert (moving_average_body window df = (df, Raise (KeyError "Close"))) as Hraise.
    { unfold moving_average_body, bind, getitem. by rewrite Hc. }
    rewrite Hraise in Hma |- *. simpl. repeat split; try done.
Qed.

Lemma statistics_frame_effect_witness :
  one_symbol !! "OK" = Some (price_frame growth_closes)
  ∧ ∃ df' df'',
      (calculate MaxDrawdown one_symbol).1 !! "OK" = Some df'
      ∧ index df' = index (price_frame growth_closes)
      ∧ (∀ name, name ∉ derived_columns MaxDrawdown →
           col_lookup name (columns df')
           = col_lookup name (columns (price_frame growth_closes)))
      ∧ (∀ c, col_lookup "Close" (columns (price_frame growth_closes)) = Some c →
           ∀ name, name ∈ derived_columns MaxDrawdown →
             is_Some (col_lookup name (columns df')))
      ∧ (col_lookup "Close" (columns (price_frame growth_closes)) = None →
         df' = price_frame growth_closes)
      ∧ calculate_moving_average 50 one_symbol !! "OK" = Some df''
      ∧ index df'' = index (price_frame growth_closes)
      ∧ (∀ name, name ≠ ma_name 50 →
           col_lookup name (columns df'')
           = col_lookup name (columns (price_frame growth_closes)))
      ∧ (∀ c, col_lookup "Close" (columns (price_frame growth_closes)) = Some c →
           col_lookup (ma_name 50) (columns df'') = Some (rolling_mean 50 c)).
Proof.
  split; [reflexivity|].
  apply (statistics_frame_effect MaxDrawdown 50 one_symbol "OK"
           (price_frame growth_closes)).
  reflexivity.
Defined.

(** ** Arithmetic on cells *)

Lemma Rsgn_pos x : (0 < x)%R → Rsgn x = Gt.
Proof.
  intros H. unfold Rsgn.
  destruct (Rlt_dec x 0); [lra|]. destruct (Rlt_dec 0 x); [done|lra].
Qed.

Lemma Rsgn_neg x : (x < 0)%R → Rsgn x = Lt.
Proof. intros H. unfold Rsgn. destruct (Rlt_dec x 0); [done|lra]. Qed.

Lemma Rsgn_zero : Rsgn 0 = Eq.
Proof.
  unfold Rsgn. destruct (Rlt_dec 0 0); [lra|]. destruct (Rlt_dec 0 0); [lra|done].
Qed.

Lemma Rsgn_Eq x : Rsgn x = Eq → x = 0%R.
Proof.
  unfold Rsgn. destruct (Rlt_dec x 0); [done|].
  destruct (Rlt_dec 0 x); [done|]. lra.
Qed.

Lemma ndiv_fin x y : y ≠ 0%R → ndiv (Fin x) (Fin y) = Fin (x / y).
Proof.
  intros Hy. simpl. destruct (Rsgn y) eqn:E; [|done..].
  by apply Rsgn_Eq in E.
Qed.

Lemma ndiv_nan_r a : ndiv a NaN = NaN.
Proof. by destruct a. Qed.

Lemma nsqrt_252 : nsqrt (Fin 252) = Fin (sqrt 252).
Proof. simpl. destruct (Rlt_dec 252 0); [lra|done]. Qed.

Lemma sqrt_252_pos : (0 < sqrt 252)%R.
Proof. apply sqrt_lt_R0. lra. Qed.

(** Dividing by a zero standard deviation and scaling by sqrt(252) gives an
    infinity or NaN, never a finite number. *)
Lemma zero_variance_ratio a :
  let r := nmul (ndiv a (Fin 0)) (nsqrt (Fin 252)) in
  r = PosInf ∨ r = NegInf ∨ r = NaN.
Proof.
  rewrite nsqrt_252. pose proof (Rsgn_pos _ sqrt_252_pos) as Hs.
  destruct a as [| | |x]; simpl; rewrite ?Rsgn_zero; simpl.
  - auto.
  - unfold scale_inf. rewrite Hs. auto.
  - unfold scale_inf. rewrite Hs. auto.
  - destruct (Rsgn x); simpl; unfold scale_inf; rewrite ?Hs; auto.
Qed.

(** ** Sharpe ratio *)

Lemma nsum_fin_from (a : R) (xs : list R) :
  foldl nadd (Fin a) (Fin <$> xs) = Fin (foldl Rplus a xs).
Proof. revert a. induction xs as [|x xs IH]; intros a; simpl; [done|]. apply IH. Qed.






Lemma is_nan64_spec (x : PrimFloat.float) :
  B64.is_nan64 x → PrimFloat.is_nan x = true.
Proof.
  unfold B64.is_nan64, PrimFloat.is_nan. intros H.
  by rewrite FloatAxioms.eqb_spec, H.
Qed.




(** In binary64 the two returns of the closes 1, 2, 4 are exactly 1, their
    computed standard deviation is 0 and the ratio is +inf.  The three
    returns of the closes 27, 9, 3, 1 are one and the same number too, but
    their computed mean is rounded away from it: the computed standard
    deviation is not 0 and the ratio is a finite number. *)
Example sharpe_ratio_binary64_values :
  PrimFloat.eqb (B64.std (B64.pct_change B64.doubling_closes)) PrimFloat.zero
    = true
  ∧ B64.sharpe_ratio B64.doubling_closes = PrimFloat.infinity
  ∧ B64.valid (B64.pct_change B64.thirds_closes)
    = replicate 3 B64.thirds_return
  ∧ PrimFloat.eqb (B64.std (B64.pct_change B64.thirds_closes)) PrimFloat.zero
    = false
  ∧ PrimFloat.is_finite (B64.sharpe_ratio B64.thirds_closes) = true.
Proof. repeat split; by vm_compute. Qed.

(** In binary64 a mean of 1 over a standard deviation of 0 is +inf, and
    0 over 0 is NaN. *)
Example sharpe_of_one_over_zero :
  B64.sharpe_of PrimFloat.one PrimFloat.zero = PrimFloat.infinity
  ∧ PrimFloat.is_nan (B64.sharpe_of PrimFloat.zero PrimFloat.zero) = true.
Proof. split; vm_compute; reflexivity. Qed.

(** Settles every [Rsgn] of a closed real expression. *)
Ltac eval_sgn :=
  repeat match goal with
    | |- context [Rsgn ?x] =>
        first [ rewrite (Rsgn_pos x) by lra
              | rewrite (Rsgn_neg x) by lra
              | replace x with 0%R by lra; rewrite Rsgn_zero ]
    end.

(** The zero-variance case does occur: closes 1, 2, 4 have the returns
    1, 1, whose standard deviation is 0 and whose mean is 1, and the Sharpe
    ratio of that symbol is +inf. *)
Example doubling_returns : pct_change doubling_closes = [NaN; Fin 1; Fin 1].
Proof.
  unfold pct_change, day_return. cbn. eval_sgn. cbn. repeat f_equal; lra.
Qed.

Example doubling_std : std (pct_change doubling_closes) = Fin 0.
Proof.
  rewrite doubling_returns. unfold std, var. cbn. eval_sgn. cbn. eval_sgn. cbn.
  destruct (Rlt_dec _ _) as [H|H]; [lra|]. f_equal.
  match goal with |- sqrt ?x = _ => replace x with 0%R by lra end.
  apply sqrt_0.
Qed.

Example doubling_sharpe :
  (calculate_sharpe_ratio doubling_symbol).2 !! "DBL" = Some PosInf.
Proof.
  unfold calculate_sharpe_ratio. rewrite for_each_symbol_result.
  change (doubling_symbol !! "DBL") with (Some (price_frame doubling_closes)).
  change (is_ok (sharpe_ratio_body (price_frame doubling_closes)).2 = Some PosInf).
  rewrite (sharpe_ratio_body_ok (price_frame doubling_closes) doubling_closes eq_refl).
  unfold is_ok, snd.
  rewrite doubling_std, doubling_returns, nsqrt_252. f_equal.
  unfold mean. cbn. eval_sgn. cbn. eval_sgn. cbn.
  unfold scale_inf. by rewrite (Rsgn_pos _ sqrt_252_pos).
Qed.

(** ** Daily returns *)

Lemma is_price_notnan a : is_price a → isnan a = false.
Proof. by destruct a. Qed.

Lemma Forall_price_notnan (s : Series) :
  Forall is_price s → Forall (λ a, isnan a = false) s.
Proof. intros H. eapply Forall_impl; [exact H|]. apply is_price_notnan. Qed.

Lemma ffill_from_id last (s : Series) :
  Forall (λ a, isnan a = false) s → ffill_from last s = s.
Proof.
  intros H. revert last. induction H as [|a s Ha _ IH]; intros last; simpl.
  - done.
  - by rewrite Ha, IH.
Qed.

Lemma valid_id (s : Series) :
  Forall (λ a, isnan a = false) s → valid s = s.
Proof. induction 1 as [|a s Ha _ IH]; simpl; [done|]. by rewrite Ha, IH. Qed.

Lemma zip_with_take_len {A B C : Type} (f : A → B → C) (l : list A) (k : list B) :
  zip_with f l (take (length l) k) = zip_with f l k.
Proof.
  revert k. induction l as [|a l IH]; intros [|b k]; simpl; try done.
  by rewrite IH.
Qed.

(** On a series without NaN the first return is NaN and every later one
    pairs a close with its predecessor. *)
Lemma pct_change_cons a (s : Series) :
  Forall (λ a, isnan a = false) (a :: s) →
  pct_change (a :: s) = NaN :: zip_with day_return s (a :: s).
Proof.
  intros H. unfold pct_change, ffill. rewrite (ffill_from_id _ _ H).
  unfold shift. simpl. unfold day_return at 1. rewrite ndiv_nan_r. simpl. f_equal.
  apply (zip_with_take_len day_return s (a :: s)).
Qed.

Lemma day_return_price x y :
  x ≠ 0%R → day_return (Fin y) (Fin x) = Fin (y / x - 1).
Proof. intros Hx. unfold day_return. by rewrite ndiv_fin. Qed.

Lemma day_returns_notnan a (s : Series) :
  Forall is_price (a :: s) →
  Forall (λ a, isnan a = false) (zip_with day_return s (a :: s)).
Proof.
  revert a. induction s as [|b s IH]; intros a H; simpl; [constructor|].
  apply Forall_cons in H as [Ha H]. constructor.
  - pose proof H as Hb. apply Forall_cons in Hb as [Hb _].
    destruct a as [| | |x], b as [| | |y]; try done.
    by rewrite day_return_price.
  - by apply IH.
Qed.

Lemma length_pct_change (s : Series) : length (pct_change s) = length s.
Proof.
  unfold pct_change, shift, ffill.
  assert (∀ last, length (ffill_from last s) = length s) as Hlen.
  { induction s as [|a s IH]; intros last; simpl; [done|]. by rewrite IH. }
  rewrite length_zip_with, length_take, Hlen. simpl. rewrite Hlen. lia.
Qed.

(** C4. The Daily Return column that the analyser stores for a series of
    prices has one row per price; its first row is NaN; every later row [i]
    is Close[i] / Close[i-1] - 1; and the rows that are defined are one
    fewer than the prices (none for the empty series). *)
Theorem daily_return_definition
    (data : gmap string DataFrame) (s : string) (df : DataFrame) (c : Series) :
  data !! s = Some df →
  col_lookup "Close" (columns df) = Some c →
  Forall is_price c →
  ∃ r,
    ((calculate_volatility data).1 !! s)
      ≫= (λ df', col_lookup "Daily Return" (columns df')) = Some r
    ∧ r = pct_change c
    ∧ length r = length c
    ∧ (∀ a, r !! 0 = Some a → a = NaN)
    ∧ (∀ i x y, c !! i = Some (Fin x) → c !! S i = Some (Fin y) →
         r !! S i = Some (Fin (y / x - 1)))
    ∧ count r = pred (length c).
Proof.
  intros Hs Hc Hprice. exists (pct_change c).
  split.
  { unfold calculate_volatility. rewrite for_each_symbol_store, Hs. simpl.
    rewrite (volatility_body_ok df c Hc). simpl. apply col_lookup_assign_eq. }
  split; [done|]. split; [apply length_pct_change|].
  destruct c as [|a0 rest].
  { repeat split; try done. }
  rewrite (pct_change_cons a0 rest (Forall_price_notnan _ Hprice)).
  split; [by intros a [= <-]|]. split.
  - intros i x y Hi HSi. simpl in HSi |- *.
    apply lookup_zip_with_Some. exists (Fin y), (Fin x).
    split; [|done]. symmetry. apply day_return_price.
    apply (Forall_lookup_1 _ _ _ _ Hprice) in Hi. exact Hi.
  - unfold count. simpl.
    rewrite (valid_id _ (day_returns_notnan a0 rest Hprice)).
    rewrite length_zip_with. simpl. lia.
Qed.

Lemma daily_return_definition_witness :
  one_symbol !! "OK" = Some (price_frame growth_closes)
  ∧ col_lookup "Close" (columns (price_frame growth_closes)) = Some growth_closes
  ∧ Forall is_price growth_closes
  ∧ ∃ r,
      ((calculate_volatility one_symbol).1 !! "OK")
        ≫= (λ df', col_lookup "Daily Return" (columns df')) = Some r
      ∧ r = pct_change growth_closes
      ∧ length r = length growth_closes
      ∧ (∀ a, r !! 0 = Some a → a = NaN)
      ∧ (∀ i x y, growth_closes !! i = Some (Fin x) →
           growth_closes !! S i = Some (Fin y) →
           r !! S i = Some (Fin (y / x - 1)))
      ∧ count r = pred (length growth_closes).
Proof.
  assert (Forall is_price growth_closes) as Hprice.
  { repeat constructor; simpl; lra. }
  split; [reflexivity|]. split; [reflexivity|]. split; [exact Hprice|].
  apply (daily_return_definition one_symbol "OK" (price_frame growth_closes)
           growth_closes); [reflexivity|reflexivity|exact Hprice].
Defined.

(** The scenario of the specification: closes 100, 110, 121 have the
    returns _, 0.10, 0.10. *)
Example growth_returns :
  pct_change growth_closes = [NaN; Fin (1/10); Fin (1/10)].
Proof.
  unfold pct_change, day_return. cbn. eval_sgn. cbn. repeat f_equal; lra.
Qed.

(** ** Cumulative returns *)

Lemma length_cumprod_from acc (s : Series) :
  length (cumprod_from acc s) = length s.
Proof.
  revert acc. induction s as [|a s IH]; intros acc; simpl; [done|].
  destruct (isnan a); simpl; by rewrite IH.
Qed.

Lemma length_cumulative_return (r : Series) :
  length (cumulative_return r) = length r.
Proof.
  unfold cumulative_return, ssub_scalar, sadd_scalar, cumprod.
  by rewrite length_fmap, length_cumprod_from, length_fmap.
Qed.


Lemma cumulative_return_nan_cons (r : Series) :
  cumulative_return (NaN :: r)
  = NaN :: ssub_scalar (cumprod_from (Fin 1) (sadd_scalar (Fin 1) r)) (Fin 1).
Proof. reflexivity. Qed.


Lemma plot_cumulative_returns_body_frame df c :
  col_lookup "Close" (columns df) = Some c →
  (plot_cumulative_returns_body df).1 =
    mkFrame (index df)
      (col_assign "Cumulative Return" (cumulative_return (pct_change c))
         (col_assign "Daily Return" (pct_change c) (columns df))).
Proof.
  intros H. unfold plot_cumulative_returns_body. run_body. rewrite H. run_body.
  destruct (col_lookup "Date" (columns df)); simpl; [|done].
  by rewrite col_lookup_assign_eq.
Qed.

Module B64Facts.
Import PrimFloat FloatOps SpecFloat.
Local Open Scope float_scope.





Lemma is_nan_of_class (x : float) : Prim2SF x = S754_nan → is_nan x = true.
Proof. unfold is_nan. intros H. by rewrite FloatAxioms.eqb_spec, H. Qed.

(** The return against a missing day before is NaN, and stays NaN when 1
    is added. *)
Lemma one_plus_first_return_nan (b : float) :
  is_nan (1 + B64.day_return b nan) = true.
Proof.
  apply is_nan_of_class. unfold B64.day_return.
  rewrite FloatAxioms.add_spec, FloatAxioms.sub_spec, FloatAxioms.div_spec.
  replace (Prim2SF nan) with S754_nan by reflexivity.
  assert (FloatAxioms.SF64div (Prim2SF b) S754_nan = S754_nan) as ->.
  { by destruct (Prim2SF b). }
  by destruct (Prim2SF 1).
Qed.

End B64Facts.




(** ** Drawdown *)

Lemma nleb_refl a : isnan a = false → nleb a a = true.
Proof.
  destruct a as [| | |x]; simpl; try done.
  intros _. destruct (Rle_dec x x); [done|lra].
Qed.

Lemma nleb_total a b :
  isnan a = false → isnan b = false → nleb a b = false → nleb b a = true.
Proof.
  destruct a as [| | |x], b as [| | |y]; simpl; try done.
  intros _ _. destruct (Rle_dec x y), (Rle_dec y x); try done. lra.
Qed.

Lemma nleb_trans a b c : nleb a b = true → nleb b c = true → nleb a c = true.
Proof.
  destruct a as [| | |x], b as [| | |y], c as [| | |z]; simpl; try done.
  destruct (Rle_dec x y), (Rle_dec y z), (Rle_dec x z); try done. lra.
Qed.

Lemma nleb_notnan a b : nleb a b = true → isnan a = false ∧ isnan b = false.
Proof. by destruct a, b. Qed.

Lemma nmax_notnan a b : isnan a = false → isnan b = false → isnan (nmax a b) = false.
Proof. intros Ha Hb. unfold nmax. by destruct (nleb a b). Qed.

Lemma nmax_ge_r a b : isnan a = false → isnan b = false → nleb b (nmax a b) = true.
Proof.
  intros Ha Hb. unfold nmax. destruct (nleb a b) eqn:E.
  - by apply nleb_refl.
  - by apply nleb_total.
Qed.

(** The running maximum is never below the value of its row. *)
Lemma cummax_from_ge (s : Series) :
  ∀ acc i a p,
    isnan acc = false →
    s !! i = Some a →
    cummax_from acc s !! i = Some p →
    (isnan a = true ∧ p = NaN) ∨ nleb a p = true.
Proof.
  induction s as [|b s IH]; intros acc i a p Hacc Hi Hp; [done|].
  simpl in Hp. destruct (isnan b) eqn:Hb.
  - destruct i as [|i]; simpl in Hi, Hp.
    + injection Hi as <-. injection Hp as <-. by left.
    + by apply (IH acc i a p).
  - destruct i as [|i]; simpl in Hi, Hp.
    + injection Hi as <-. injection Hp as <-. right. by apply nmax_ge_r.
    + apply (IH (nmax acc b) i a p); [by apply nmax_notnan|done..].
Qed.

(** A value minus something that is not below it is NaN (inf - inf) or at
    most zero. *)
Lemma nsub_le_nonpositive a p :
  nleb a p = true → nsub a p = NaN ∨ nonpositive (nsub a p).
Proof.
  destruct a as [| | |x], p as [| | |y]; simpl; try done; auto.
  destruct (Rle_dec x y); [|done]. intros _. right. lra.
Qed.

Lemma drawdown_nonpositive (cr : Series) i d :
  ssub cr (cummax cr) !! i = Some d → d = NaN ∨ nonpositive d.
Proof.
  unfold ssub. intros (a & p & -> & Ha & Hp)%lookup_zip_with_Some.
  destruct (cummax_from_ge cr NegInf i a p eq_refl Ha Hp) as [[Hn ->]|Hle].
  - left. by destruct a.
  - by apply nsub_le_nonpositive.
Qed.

(** ** The minimum of a series *)

Lemma elem_of_valid (s : Series) a : a ∈ valid s ↔ a ∈ s ∧ isnan a = false.
Proof.
  induction s as [|b s IH]; simpl.
  - split; [by intros ?%not_elem_of_nil|by intros [?%not_elem_of_nil _]].
  - destruct (isnan b) eqn:Hb.
    + rewrite IH, elem_of_cons. split.
      * intros [H1 H2]. auto.
      * intros [[->|H1] H2]; [congruence|done].
    + rewrite !elem_of_cons, IH. split.
      * intros [->|[H1 H2]]; auto.
      * intros [[->|H1] H2]; auto.
Qed.

Lemma nmin_cases a b : nmin a b = a ∨ nmin a b = b.
Proof. unfold nmin. destruct (nleb b a); auto. Qed.

Lemma nmin_le a b :
  isnan a = false → isnan b = false →
  nleb (nmin a b) a = true ∧ nleb (nmin a b) b = true.
Proof.
  intros Ha Hb. unfold nmin. destruct (nleb b a) eqn:E.
  - split; [done|by apply nleb_refl].
  - split; [by apply nleb_refl|by apply nleb_total].
Qed.

Lemma foldl_nmin_elem (v : Series) a : foldl nmin a v ∈ a :: v.
Proof.
  revert a. induction v as [|b v IH]; intros a; simpl; [by left|].
  specialize (IH (nmin a b)). apply elem_of_cons in IH as [->|IH].
  - destruct (nmin_cases a b) as [-> | ->]; [by left|right; by left].
  - right. by right.
Qed.

Lemma foldl_nmin_le (v : Series) a :
  isnan a = false → Forall (λ b, isnan b = false) v →
  ∀ d, d ∈ a :: v → nleb (foldl nmin a v) d = true.
Proof.
  intros Ha Hv. revert a Ha. induction Hv as [|b v Hb Hv IH]; intros a Ha d Hd; simpl.
  - apply list_elem_of_singleton in Hd as ->. by apply nleb_refl.
  - destruct (nmin_le a b Ha Hb) as [Hma Hmb].
    assert (isnan (nmin a b) = false) as Hm by (by apply nleb_notnan in Hma as [? _]).
    pose proof (IH (nmin a b) Hm) as IH'.
    apply elem_of_cons in Hd as [->|Hd].
    + eapply nleb_trans; [|exact Hma]. apply IH'. by left.
    + apply elem_of_cons in Hd as [->|Hd].
      * eapply nleb_trans; [|exact Hmb]. apply IH'. by left.
      * apply IH'. by right.
Qed.

Lemma valid_notnan (s : Series) : Forall (λ a, isnan a = false) (valid s).
Proof. apply Forall_forall. by intros a [_ ?]%elem_of_valid. Qed.

(** [smin] is a value of the series that no defined value is below. *)
Lemma smin_is_min (s : Series) :
  count s ≠ 0 →
  smin s ∈ s ∧ isnan (smin s) = false
  ∧ ∀ d, d ∈ s → isnan d = false → nleb (smin s) d = true.
Proof.
  unfold count, smin. pose proof (valid_notnan s) as Hv.
  pose proof (elem_of_valid s) as Hel.
  destruct (valid s) as [|a v]; [done|]. intros _.
  apply Forall_cons in Hv as [Ha Hv].
  pose proof (foldl_nmin_elem v a) as Hin. apply Hel in Hin as [Hin Hnan].
  repeat split; [done..|].
  intros d Hd Hdn. apply foldl_nmin_le; [done..|]. by apply Hel.
Qed.

Lemma smin_all_nan (s : Series) : count s = 0 → smin s = NaN.
Proof.
  unfold count, smin. by destruct (valid s).
Qed.

Lemma length_cummax_from acc (s : Series) :
  length (cummax_from acc s) = length s.
Proof.
  revert acc. induction s as [|a s IH]; intros acc; simpl; [done|].
  destruct (isnan a); simpl; by rewrite IH.
Qed.

(** The minimum of the drawdowns of any series of cumulative returns,
    infinite ones included, is NaN or at most zero. *)
Lemma smin_drawdown_nonpositive (cr : Series) :
  let dd := ssub cr (cummax cr) in
  smin dd = NaN ∨ nonpositive (smin dd).
Proof.
  intros dd. destruct (decide (count dd = 0)) as [H0|Hcount].
  - left. by apply smin_all_nan.
  - destruct (smin_is_min dd Hcount) as (Hin & Hnan & _).
    apply list_elem_of_lookup in Hin as [i Hi].
    destruct (drawdown_nonpositive cr i _ Hi) as [Heq|Hle]; [by left|by right].
Qed.

(** C6, as the specification states it, on a symbol with a single day of
    data: the value that [calculate_max_drawdown] returns is NaN, which is
    not at most zero; the binary64 value is NaN as well. *)
Lemma max_drawdown_single_day_counterexample :
  (calculate_max_drawdown single_day).2 !! "DAY" = Some NaN
  ∧ ¬ nonpositive NaN
  ∧ PrimFloat.is_nan (B64.max_drawdown B64.single_close) = true.
Proof.
  split; [|split; [by intros []|by vm_compute]].
  unfold calculate_max_drawdown. rewrite for_each_symbol_result. reflexivity.
Qed.

(** C6, amended.  With Peak the running maximum of the cumulative returns
    and Drawdown[i] = CumulativeReturn[i] - Peak[i], every Drawdown[i] that
    is defined is at most zero (the first row is always NaN), and
    [calculate_max_drawdown] returns min(Drawdown): a row of Drawdown that
    no defined row is below, itself at most zero, as soon as one drawdown is
    defined.  When no drawdown is defined it returns NaN, and none is
    defined for a series of fewer than two rows.  That a drawdown is NaN or
    at most zero, and so is their minimum, holds for any cumulative
    returns, infinite ones included. *)
Theorem max_drawdown_nonpositive
    (data : gmap string DataFrame) (s : string) (df : DataFrame) (c : Series) :
  data !! s = Some df →
  col_lookup "Close" (columns df) = Some c →
  let cr := cumulative_return (pct_change c) in
  let peak := cummax cr in
  let dd := ssub cr peak in
  (calculate_max_drawdown data).2 !! s = Some (smin dd)
  ∧ (∀ i d, dd !! i = Some d → d = NaN ∨ nonpositive d)
  ∧ (∀ d, dd !! 0 = Some d → d = NaN)
  ∧ (count dd ≠ 0 →
       smin dd ∈ dd ∧ nonpositive (smin dd)
       ∧ ∀ d, d ∈ dd → isnan d = false → nleb (smin dd) d = true)
  ∧ (count dd = 0 → smin dd = NaN)
  ∧ (length c ≤ 1 → count dd = 0)
  ∧ (∀ cr' : Series,
       let dd' := ssub cr' (cummax cr') in
       (∀ i d, dd' !! i = Some d → d = NaN ∨ nonpositive d)
       ∧ (smin dd' = NaN ∨ nonpositive (smin dd'))).
Proof.
  intros Hs Hc cr peak dd. split.
  { unfold calculate_max_drawdown. rewrite for_each_symbol_result, Hs. simpl.
    by rewrite (max_drawdown_body_ok df c Hc). }
  split; [apply drawdown_nonpositive|].
  assert (∀ d, dd !! 0 = Some d → d = NaN) as Hhead.
  { subst dd peak. unfold ssub.
    intros d (a & p & -> & Ha & Hp)%lookup_zip_with_Some.
    assert (a = NaN) as ->; [|done].
    subst cr. unfold pct_change, shift in Ha.
    destruct (ffill c) as [|a0 l]; [done|]. simpl in Ha.
    unfold day_return in Ha. rewrite ndiv_nan_r in Ha. simpl in Ha. congruence. }
  split; [exact Hhead|]. split.
  { intros Hcount. destruct (smin_is_min dd Hcount) as (Hin & Hnan & Hmin).
    split; [done|]. split; [|done].
    apply list_elem_of_lookup in Hin as [i Hi].
    destruct (drawdown_nonpositive cr i _ Hi) as [Heq|Hle]; [|done].
    rewrite Heq in Hnan. done. }
  split; [apply smin_all_nan|]. split.
  { intros Hlen.
    assert (length dd = length c) as Hldd.
    { subst dd peak cr. unfold ssub, cummax.
      rewrite length_zip_with, length_cummax_from, length_cumulative_return,
        length_pct_change. lia. }
    destruct dd as [|d [|d' dd']]; [done| |simpl in Hldd; lia].
    by rewrite (Hhead d eq_refl). }
  intros cr' dd'. split; [apply drawdown_nonpositive|].
  apply smin_drawdown_nonpositive.
Qed.

Lemma max_drawdown_nonpositive_witness :
  one_symbol !! "OK" = Some (price_frame growth_closes)
  ∧ col_lookup "Close" (columns (price_frame growth_closes)) = Some growth_closes
  ∧ let cr := cumulative_return (pct_change growth_closes) in
    let peak := cummax cr in
    let dd := ssub cr peak in
    (calculate_max_drawdown one_symbol).2 !! "OK" = Some (smin dd)
    ∧ (∀ i d, dd !! i = Some d → d = NaN ∨ nonpositive d)
    ∧ (∀ d, dd !! 0 = Some d → d = NaN)
    ∧ (count dd ≠ 0 →
         smin dd ∈ dd ∧ nonpositive (smin dd)
         ∧ ∀ d, d ∈ dd → isnan d = false → nleb (smin dd) d = true)
    ∧ (count dd = 0 → smin dd = NaN)
    ∧ (length growth_closes ≤ 1 → count dd = 0)
    ∧ (∀ cr' : Series,
         let dd' := ssub cr' (cummax cr') in
         (∀ i d, dd' !! i = Some d → d = NaN ∨ nonpositive d)
         ∧ (smin dd' = NaN ∨ nonpositive (smin dd'))).
Proof.
  do 2 (split; [reflexivity|]).
  apply (max_drawdown_nonpositive one_symbol "OK" (price_frame growth_closes)
           growth_closes); reflexivity.
Defined.

(** In binary64: a fall by half over two days is reported as a drawdown of
    0, and two prices whose ratio overflows give NaN (inf - inf), although
    both are finite and not zero. *)
Example max_drawdown_binary64_values :
  B64.max_drawdown B64.falling_closes = PrimFloat.zero
  ∧ PrimFloat.is_nan (B64.max_drawdown B64.overflowing_closes) = true.
Proof. split; by vm_compute. Qed.

(** Settles every comparison of two closed real expressions. *)
Ltac eval_le :=
  repeat match goal with
    | |- context [Rle_dec ?x ?y] =>
        let H := fresh in
        first [ destruct (Rle_dec x y) as [H|H]; [|exfalso; lra]
              | destruct (Rle_dec x y) as [H|H]; [exfalso; lra|] ];
        clear H; cbn
    end.

(** Closes 100, 50, 100: the cumulative returns are _, -0.5, 0.  The first
    row being NaN, the running peak starts at -0.5, the drawdowns are
    _, 0, 0 and the maximum drawdown is 0. *)
Example halving_max_drawdown :
  let cr := cumulative_return (pct_change [Fin 100; Fin 50; Fin 100]) in
  smin (ssub cr (cummax cr)) = Fin 0.
Proof.
  unfold pct_change, day_return. cbn. eval_sgn. cbn.
  unfold smin, nmax, nmin. cbn. eval_le.
  f_equal. lra.
Qed.

(** ** Moving average *)

Lemma window_at_1 (s : Series) i a :
  s !! i = Some a → window_at 1 i s = [a].
Proof.
  intros Hi. unfold window_at. simpl. rewrite Nat.sub_0_r.
  rewrite (drop_S _ _ _ Hi). done.
Qed.

Lemma rolling_mean_window_1 (s : Series) :
  Forall (λ a, isinf a = false) s → rolling_mean 1 s = s.
Proof.
  intros Hfin. apply list_eq. intros i. unfold rolling_mean.
  rewrite list_lookup_imap. destruct (s !! i) as [a|] eqn:Hi; [|done].
  simpl. f_equal.
  assert ((inf_to_nan <$> s) !! i = Some a) as Hw.
  { rewrite list_lookup_fmap, Hi. simpl. f_equal.
    apply (Forall_lookup_1 _ _ _ _ Hfin) in Hi. unfold inf_to_nan. by rewrite Hi. }
  rewrite (window_at_1 _ _ _ Hw).
  destruct a as [| | |x]; try done.
  - by apply (Forall_lookup_1 _ _ _ _ Hfin) in Hi.
  - by apply (Forall_lookup_1 _ _ _ _ Hfin) in Hi.
  - cbn. rewrite Rsgn_pos by lra. f_equal. field.
Qed.

(** C7. With window 1 the moving-average column that the analyser stores is
    the Close column, value for value (a close that is infinite is no price;
    the rolling code would read it as missing). *)
Theorem moving_average_window_one
    (data : gmap string DataFrame) (s : string) (df : DataFrame) (c : Series) :
  data !! s = Some df →
  col_lookup "Close" (columns df) = Some c →
  Forall (λ a, isinf a = false) c →
  ∃ df',
    calculate_moving_average 1 data !! s = Some df'
    ∧ col_lookup "1-Day MA" (columns df') = Some c
    ∧ col_lookup "Close" (columns df') = Some c.
Proof.
  intros Hs Hc Hfin.
  exists (moving_average_body 1 df).1. split.
  { unfold calculate_moving_average. by rewrite for_each_symbol_store, Hs. }
  rewrite (moving_average_body_ok 1 df c Hc). simpl.
  change (ma_name 1) with "1-Day MA".
  rewrite col_lookup_assign_eq, col_lookup_assign_ne by done.
  by rewrite rolling_mean_window_1.
Qed.

Lemma moving_average_window_one_witness :
  one_symbol !! "OK" = Some (price_frame growth_closes)
  ∧ col_lookup "Close" (columns (price_frame growth_closes)) = Some growth_closes
  ∧ Forall (λ a, isinf a = false) growth_closes
  ∧ ∃ df',
      calculate_moving_average 1 one_symbol !! "OK" = Some df'
      ∧ col_lookup "1-Day MA" (columns df') = Some growth_closes
      ∧ col_lookup "Close" (columns df') = Some growth_closes.
Proof.
  assert (Forall (λ a, isinf a = false) growth_closes) as Hfin.
  { repeat constructor. }
  do 2 (split; [reflexivity|]). split; [exact Hfin|].
  apply (moving_average_window_one one_symbol "OK" (price_frame growth_closes)
           growth_closes); [reflexivity|reflexivity|exact Hfin].
Defined.

(** ** Cleaning *)

Lemma col_assign_same name c cols :
  col_lookup name cols = Some c → col_assign name c cols = cols.
Proof.
  induction cols as [|[n c0] cols IH]; simpl; [done|].
  destruct (decide (n = name)) as [->|Hne].
  - by intros [= ->].
  - intros H. by rewrite IH.
Qed.

Lemma length_ffill_from last (s : Series) :
  length (ffill_from last s) = length s.
Proof.
  revert last. induction s as [|a s IH]; intros last; simpl; [done|].
  by rewrite IH.
Qed.

(** A row before which the column has no value has none after the fill. *)
Lemma ffill_leading_nan (s : Series) i :
  i < length s → (∀ j, j ≤ i → s !! j = Some NaN) → ffill s !! i = Some NaN.
Proof.
  unfold ffill. revert i. induction s as [|a s IH]; intros i Hlt Hnan.
  - simpl in Hlt. lia.
  - pose proof (Hnan 0 ltac:(lia)) as H0. simpl in H0. injection H0 as ->.
    simpl. destruct i as [|i]; [done|]. simpl.
    apply IH; [simpl in Hlt; lia|].
    intros j Hj. apply (Hnan (S j)). lia.
Qed.

Lemma keep_rows_all {A : Type} (mask : list bool) (l : list A) :
  Forall (λ b, b = true) mask → length l ≤ length mask → keep_rows mask l = l.
Proof.
  intros Hmask. revert l. induction Hmask as [|b mask -> _ IH]; intros l Hlen.
  - destruct l; [done|simpl in Hlen; lia].
  - destruct l as [|a l]; [done|]. simpl. rewrite IH; [done|simpl in Hlen; lia].
Qed.

Lemma length_keep_rows {A B : Type} (mask : list bool) (l : list A) (k : list B) :
  length l = length mask → length k = length mask →
  length (keep_rows mask l) = length (keep_rows mask k).
Proof.
  revert l k. induction mask as [|b mask IH]; intros l k Hl Hk.
  - by destruct l, k.
  - destruct l as [|a l], k as [|c k]; try done.
    simpl in Hl, Hk |- *. destruct b; simpl; rewrite (IH l k); auto with lia.
Qed.

Lemma elem_of_keep_rows {A : Type} (mask : list bool) (l : list A) x :
  x ∈ keep_rows mask l → ∃ i, mask !! i = Some true ∧ l !! i = Some x.
Proof.
  revert l. induction mask as [|b mask IH]; intros l Hx.
  - simpl in Hx. destruct l; by apply not_elem_of_nil in Hx.
  - destruct l as [|a l]; [by apply not_elem_of_nil in Hx|].
    simpl in Hx. destruct b.
    + apply elem_of_cons in Hx as [->|Hx]; [by exists 0|].
      destruct (IH l Hx) as (i & ? & ?). by exists (S i).
    + destruct (IH l Hx) as (i & ? & ?). by exists (S i).
Qed.

Lemma dropna_mask_lookup df i :
  i < nrows df → dropna_mask df !! i = Some (row_complete (columns df) i).
Proof.
  intros Hi. unfold dropna_mask. rewrite list_lookup_fmap.
  by rewrite (lookup_seq_lt 0 (nrows df) i Hi).
Qed.

Lemma length_dropna_mask df : length (dropna_mask df) = nrows df.
Proof. unfold dropna_mask. by rewrite length_fmap, length_seq. Qed.

Lemma row_complete_true cols i :
  row_complete cols i = true ↔
  ∀ name col, (name, col) ∈ cols → isnan (default NaN (col !! i)) = false.
Proof.
  unfold row_complete. rewrite forallb_forall. split.
  - intros H name col Hin. apply list_elem_of_In in Hin.
    specialize (H _ Hin). simpl in H. by apply negb_true_iff in H.
  - intros H [name col] Hin. apply list_elem_of_In in Hin.
    apply negb_true_iff. by apply (H name col).
Qed.

Lemma wf_fillna_ffill df : wf_frame df → wf_frame (fillna_ffill_frame df).
Proof.
  unfold wf_frame, fillna_ffill_frame, nrows. simpl. intros H.
  apply Forall_fmap. eapply Forall_impl; [exact H|].
  intros [n c] Hc. simpl in Hc |- *. unfold ffill. by rewrite length_ffill_from.
Qed.

Lemma wf_dropna df : wf_frame df → wf_frame (dropna_frame df).
Proof.
  unfold wf_frame, dropna_frame, nrows. simpl. intros H.
  apply Forall_fmap. eapply Forall_impl; [exact H|].
  intros [n c] Hc. simpl in Hc |- *.
  apply length_keep_rows; rewrite length_dropna_mask; done.
Qed.

(** After [dropna] no column has a NaN left. *)
Lemma dropna_frame_clean df : frame_clean (dropna_frame df).
Proof.
  unfold frame_clean, dropna_frame. simpl. apply Forall_fmap, Forall_forall.
  intros [n c] Hin. simpl. apply Forall_forall. intros x Hx.
  apply elem_of_keep_rows in Hx as (i & Hmask & Hi).
  assert (i < nrows df) as Hlt.
  { rewrite <- length_dropna_mask. by apply lookup_lt_Some in Hmask. }
  rewrite (dropna_mask_lookup df i Hlt) in Hmask. injection Hmask as Hrow.
  pose proof (proj1 (row_complete_true _ _) Hrow n c Hin) as Hnan.
  by rewrite Hi in Hnan.
Qed.

(** Filling and dropping leave a clean frame as it is. *)
Lemma fillna_ffill_clean df : frame_clean df → fillna_ffill_frame df = df.
Proof.
  destruct df as [idx cols]. unfold frame_clean, fillna_ffill_frame. simpl.
  intros H. f_equal. induction H as [|[n c] cols Hc _ IH]; [done|].
  simpl in Hc |- *. unfold ffill at 1. rewrite (ffill_from_id _ _ Hc).
  f_equal. exact IH.
Qed.

Lemma dropna_mask_clean df :
  wf_frame df → frame_clean df → Forall (λ b, b = true) (dropna_mask df).
Proof.
  intros Hwf Hclean. apply Forall_lookup. intros i b Hb.
  assert (i < nrows df) as Hlt.
  { rewrite <- length_dropna_mask. by apply lookup_lt_Some in Hb. }
  rewrite (dropna_mask_lookup df i Hlt) in Hb. injection Hb as <-.
  apply row_complete_true. intros name col Hin.
  pose proof (proj1 (Forall_forall _ _) Hwf _ Hin) as Hlen.
  pose proof (proj1 (Forall_forall _ _) Hclean _ Hin) as Hcol.
  simpl in Hlen, Hcol.
  destruct (col !! i) as [a|] eqn:Ha.
  - simpl. by apply (Forall_lookup_1 _ _ _ _ Hcol) in Ha.
  - apply lookup_ge_None in Ha. lia.
Qed.

Lemma keep_rows_all_columns (mask : list bool) (cols : list (string * Series)) n :
  Forall (λ b, b = true) mask → length mask = n →
  Forall (λ p, length p.2 = n) cols →
  (λ p, (p.1, keep_rows mask p.2)) <$> cols = cols.
Proof.
  intros Hmask Hlen Hcols. induction Hcols as [|[name c] cols Hc _ IH]; [done|].
  simpl in Hc |- *. rewrite keep_rows_all by (done || lia). by f_equal.
Qed.

Lemma dropna_clean df : wf_frame df → frame_clean df → dropna_frame df = df.
Proof.
  intros Hwf Hclean. pose proof (dropna_mask_clean df Hwf Hclean) as Hmask.
  pose proof (length_dropna_mask df) as Hlen.
  destruct df as [[name labels] cols]. unfold dropna_frame. simpl.
  unfold nrows in Hlen. simpl in Hlen.
  rewrite keep_rows_all by (done || lia). f_equal.
  by apply (keep_rows_all_columns _ _ (length labels)).
Qed.

(** What [clean_data] does to one frame. *)
Lemma clean_body_ok df d :
  col_lookup "Date" (columns df) = Some d →
  clean_body df = (dropna_frame (fillna_ffill_frame df), Ok tt).
Proof.
  intros Hd. unfold clean_body, bind, getitem, setitem, fillna_ffill, dropna.
  rewrite Hd. simpl. unfold to_datetime. rewrite (col_assign_same _ _ _ Hd).
  by destruct df.
Qed.

Lemma clean_body_no_date df :
  col_lookup "Date" (columns df) = None →
  clean_body df = (df, Raise (KeyError "Date")).
Proof. intros Hd. unfold clean_body, bind, getitem. by rewrite Hd. Qed.

Lemma clean_body_fixed df :
  wf_frame df → frame_clean df → (clean_body df).1 = df.
Proof.
  intros Hwf Hclean. destruct (col_lookup "Date" (columns df)) as [d|] eqn:Hd.
  - rewrite (clean_body_ok df d Hd). simpl.
    rewrite (fillna_ffill_clean df Hclean). by apply dropna_clean.
  - by rewrite (clean_body_no_date df Hd).
Qed.

Lemma clean_body_twice df :
  wf_frame df → (clean_body (clean_body df).1).1 = (clean_body df).1.
Proof.
  intros Hwf. destruct (col_lookup "Date" (columns df)) as [d|] eqn:Hd.
  - rewrite (clean_body_ok df d Hd). simpl. apply clean_body_fixed.
    + by apply wf_dropna, wf_fillna_ffill.
    + apply dropna_frame_clean.
  - rewrite (clean_body_no_date df Hd). simpl.
    by rewrite (clean_body_no_date df Hd).
Qed.

Lemma clean_data_lookup data k :
  clean_data data !! k = (λ df, (clean_body df).1) <$> data !! k.
Proof. apply for_each_symbol_store. Qed.

(** C8. On a store of frames, cleaning what has been cleaned changes
    nothing: clean after clean is clean; and a store whose frames have no
    missing value comes out of [clean_data] as it went in. *)
Theorem clean_data_idempotent (data : gmap string DataFrame) :
  (∀ s df, data !! s = Some df → wf_frame df) →
  clean_data (clean_data data) = clean_data data
  ∧ ((∀ s df, data !! s = Some df → frame_clean df) → clean_data data = data).
Proof.
  intros Hwf. split.
  - apply map_eq. intros k. rewrite !clean_data_lookup.
    destruct (data !! k) as [df|] eqn:Hk; [|done]. simpl. f_equal.
    apply clean_body_twice. by apply (Hwf k).
  - intros Hclean. apply map_eq. intros k. rewrite clean_data_lookup.
    destruct (data !! k) as [df|] eqn:Hk; [|done]. simpl. f_equal.
    apply clean_body_fixed; [by apply (Hwf k)|by apply (Hclean k)].
Qed.

Lemma gap_symbol_wf : ∀ s df, gap_symbol !! s = Some df → wf_frame df.
Proof.
  unfold gap_symbol. intros s df [_ <-]%lookup_singleton_Some.
  repeat constructor.
Qed.

Lemma clean_data_idempotent_witness :
  (∀ s df, gap_symbol !! s = Some df → wf_frame df)
  ∧ clean_data (clean_data gap_symbol) = clean_data gap_symbol
  ∧ ((∀ s df, gap_symbol !! s = Some df → frame_clean df) →
     clean_data gap_symbol = gap_symbol).
Proof.
  split; [exact gap_symbol_wf|].
  apply (clean_data_idempotent gap_symbol). exact gap_symbol_wf.
Defined.

(** The gap in the closes is filled from the day before; the first day,
    which has a close but no volume, is dropped. *)
Example clean_gap_frame :
  clean_data gap_symbol !! "GAP" =
    Some (mkFrame (mkIndex None [of_nat 1; of_nat 2])
            [("Date", [of_nat 1; of_nat 2]);
             ("Close", [Fin 100; Fin 102]);
             ("Volume", [Fin 5; Fin 6])]).
Proof. rewrite clean_data_lookup. reflexivity. Qed.

Lemma filled_row_complete df i :
  wf_frame df → i < nrows df →
  row_complete (columns (fillna_ffill_frame df)) i = true ↔
  ∀ name col, (name, col) ∈ columns df →
    ∃ a, ffill col !! i = Some a ∧ isnan a = false.
Proof.
  intros Hwf Hi. rewrite row_complete_true. simpl. split.
  - intros H name col Hin.
    pose proof (proj1 (Forall_forall _ _) Hwf _ Hin) as Hlen. simpl in Hlen.
    destruct (ffill col !! i) as [a|] eqn:Ha.
    + exists a. split; [done|].
      specialize (H name (ffill col)). rewrite Ha in H. apply H.
      apply list_elem_of_fmap. by exists (name, col).
    + apply lookup_ge_None in Ha. unfold ffill in Ha.
      rewrite length_ffill_from in Ha. lia.
  - intros H name col' Hin.
    apply list_elem_of_fmap in Hin as ([n col] & [= -> ->] & Hin).
    destruct (H n col Hin) as (a & Ha & Hnan). simpl. by rewrite Ha.
Qed.

Lemma valid_app (s1 s2 : Series) : valid (s1 ++ s2) = valid s1 ++ valid s2.
Proof.
  induction s1 as [|a s1 IH]; simpl; [done|].
  destruct (isnan a); simpl; by rewrite IH.
Qed.

(** A value that is present is its own last valid value. *)
Lemma last_valid_present (col : Series) i a :
  col !! i = Some a → isnan a = false → last_valid col i = a.
Proof.
  intros Hi Ha. unfold last_valid.
  rewrite (take_S_r _ _ _ Hi), valid_app. simpl. rewrite Ha.
  by rewrite last_snoc.
Qed.

(** A missing value takes the last valid value of the row before. *)
Lemma last_valid_gap (col : Series) i :
  col !! S i = Some NaN → last_valid col (S i) = last_valid col i.
Proof.
  intros Hi. unfold last_valid.
  rewrite (take_S_r _ (S i) _ Hi), valid_app. simpl. by rewrite app_nil_r.
Qed.

Lemma last_valid_first_missing (col : Series) :
  col !! 0 = Some NaN → last_valid col 0 = NaN.
Proof. intros H0. unfold last_valid. by rewrite (take_S_r _ 0 _ H0). Qed.

Lemma last_valid_leading (col : Series) i :
  (∀ j, j ≤ i → col !! j = Some NaN) → last_valid col i = NaN.
Proof.
  induction i as [|i IH]; intros H.
  - apply last_valid_first_missing, H. lia.
  - rewrite last_valid_gap by (apply H; lia). apply IH. intros j Hj. apply H. lia.
Qed.

(** The forward fill of the model leaves in each row the last valid value
    at or before it. *)
Lemma ffill_from_lookup (s : Series) :
  ∀ l i, i < length s →
    ffill_from l s !! i = Some (default l (last (valid (take (S i) s)))).
Proof.
  induction s as [|a s IH]; intros l i Hi; [simpl in Hi; lia|].
  destruct i as [|i].
  - change (take 1 (a :: s)) with [a]. simpl. by destruct (isnan a).
  - simpl in Hi. cbn [ffill_from lookup list_lookup].
    rewrite IH by lia. f_equal.
    change (take (S (S i)) (a :: s)) with (a :: take (S i) s).
    cbn [valid]. destruct (isnan a); [done|].
    rewrite last_cons. by destruct (last (valid (take (S i) s))).
Qed.

Lemma ffill_lookup (s : Series) i :
  i < length s → ffill s !! i = Some (last_valid s i).
Proof. intros Hi. unfold ffill, last_valid. by apply ffill_from_lookup. Qed.

(** Selecting rows by a mask computed row by row is selecting them by their
    number. *)
Lemma keep_rows_by_index {A : Type} (f : nat → bool) (d : A) n :
  ∀ k (l : list A), length l = n →
    keep_rows (f <$> seq k n) l
    = (λ i, default d (l !! (i - k))) <$> List.filter f (seq k n).
Proof.
  induction n as [|n IH]; intros k l Hlen.
  - by destruct l.
  - destruct l as [|a l]; [done|]. simpl in Hlen.
    cbn [seq fmap list_fmap keep_rows List.filter].
    rewrite (IH (S k) l) by lia.
    assert ((λ i, default d (l !! (i - S k))) <$> List.filter f (seq (S k) n)
            = (λ i, default d ((a :: l) !! (i - k))) <$> List.filter f (seq (S k) n))
      as ->.
    { apply list_fmap_ext. intros j i Hj.
      apply list_elem_of_lookup_2, list_elem_of_In, filter_In in Hj as [Hj _].
      apply in_seq in Hj. replace (i - k) with (S (i - S k)) by lia. done. }
    destruct (f k); [|done]. rewrite fmap_cons. by rewrite Nat.sub_diag.
Qed.

Lemma fmap_filter_ext {B : Type} (f f' : nat → bool) (g g' : nat → B)
    (l : list nat) :
  (∀ i, i ∈ l → f i = f' i) → (∀ i, i ∈ l → g i = g' i) →
  g <$> List.filter f l = g' <$> List.filter f' l.
Proof.
  induction l as [|x l IH]; intros Hf Hg; [done|]. simpl.
  assert (g <$> List.filter f l = g' <$> List.filter f' l) as Htl.
  { apply IH; intros i Hi; [apply Hf|apply Hg]; by right. }
  rewrite <- (Hf x) by (by left).
  destruct (f x); [|done]. rewrite !fmap_cons, Htl. by rewrite (Hg x) by (by left).
Qed.

(** After the fill a row is complete when every column has had a value. *)
Lemma row_complete_filled (cols : list (string * Series)) n i :
  Forall (λ p, length p.2 = n) cols → i < n →
  row_complete ((λ p, (p.1, ffill p.2)) <$> cols) i = row_survives cols i.
Proof.
  intros Hwf Hi. unfold row_complete, row_survives.
  induction Hwf as [|[name col] cols Hlen _ IH]; [done|].
  simpl in Hlen. rewrite fmap_cons. cbn [forallb snd].
  rewrite ffill_lookup by lia. cbn [default]. f_equal. exact IH.
Qed.

Lemma cleaned_column (cols : list (string * Series)) n (col : Series) :
  Forall (λ p, length p.2 = n) cols → length col = n →
  keep_rows (row_complete ((λ p, (p.1, ffill p.2)) <$> cols) <$> seq 0 n)
            (ffill col)
  = last_valid col <$> surviving_rows cols n.
Proof.
  intros Hwf Hlen. unfold surviving_rows.
  rewrite (keep_rows_by_index _ NaN n 0)
    by (unfold ffill; by rewrite length_ffill_from).
  apply fmap_filter_ext.
  - intros i Hi%list_elem_of_In%in_seq.
    apply (row_complete_filled cols n); [done|lia].
  - intros i Hi%list_elem_of_In%in_seq. rewrite Nat.sub_0_r.
    rewrite ffill_lookup by lia. done.
Qed.

Lemma elem_of_surviving_rows cols n i :
  i ∈ surviving_rows cols n ↔
  i < n ∧ ∀ name col, (name, col) ∈ cols → isnan (last_valid col i) = false.
Proof.
  unfold surviving_rows. rewrite list_elem_of_In, filter_In, in_seq.
  unfold row_survives. rewrite forallb_forall. split.
  - intros [Hi Hall]. split; [lia|]. intros name col Hin.
    apply list_elem_of_In in Hin. specialize (Hall _ Hin). simpl in Hall.
    by apply negb_true_iff in Hall.
  - intros [Hi Hall]. split; [lia|]. intros [name col] Hin.
    apply list_elem_of_In in Hin. apply negb_true_iff. by apply (Hall name col).
Qed.

(** C10. [clean_data] forward-fills every column of the frame, Close or
    not: each row of each column gets the last value the column had at or
    before that row (a value that is present stays, a missing one takes the
    value of the row before, and a column that starts with a missing value
    keeps it missing).  Then it keeps, in order, exactly the rows in which
    every column has had a value, and drops the others from every column
    and from the index.  So a row of a column that has had no value up to
    that row is dropped from the whole frame, whatever its close is. *)
Theorem clean_data_fills_and_drops_every_column
    (data : gmap string DataFrame) (s : string) (df : DataFrame) (d : Series) :
  data !! s = Some df →
  wf_frame df →
  col_lookup "Date" (columns df) = Some d →
  let rows := surviving_rows (columns df) (nrows df) in
  ∃ df',
    clean_data data !! s = Some df'
    ∧ columns df' = (λ p, (p.1, last_valid p.2 <$> rows)) <$> columns df
    ∧ idx_labels (index df')
      = (λ i, default NaN (idx_labels (index df) !! i)) <$> rows
    ∧ (∀ i, i ∈ rows ↔
         i < nrows df
         ∧ ∀ name col, (name, col) ∈ columns df →
             isnan (last_valid col i) = false)
    ∧ (∀ (col : Series) i a,
         col !! i = Some a → isnan a = false → last_valid col i = a)
    ∧ (∀ (col : Series) i,
         col !! S i = Some NaN → last_valid col (S i) = last_valid col i)
    ∧ (∀ col : Series, col !! 0 = Some NaN → last_valid col 0 = NaN)
    ∧ (∀ i name col, (name, col) ∈ columns df →
         (∀ j, j ≤ i → col !! j = Some NaN) → i ∉ rows)
    ∧ frame_clean df'.
Proof.
  intros Hs Hwf Hd rows.
  exists (dropna_frame (fillna_ffill_frame df)). split.
  { rewrite clean_data_lookup, Hs. simpl. by rewrite (clean_body_ok df d Hd). }
  split.
  { simpl. rewrite <- list_fmap_compose. apply list_fmap_ext.
    intros j [name col] Hj. simpl. f_equal.
    apply list_elem_of_lookup_2 in Hj.
    pose proof (proj1 (Forall_forall _ _) Hwf _ Hj) as Hlen. simpl in Hlen.
    by apply cleaned_column. }
  split.
  { simpl. unfold dropna_mask. simpl.
    rewrite (keep_rows_by_index _ NaN (nrows df) 0) by done.
    apply fmap_filter_ext.
    - intros i Hi%list_elem_of_In%in_seq.
      apply (row_complete_filled _ (nrows df)); [done|lia].
    - intros i _. by rewrite Nat.sub_0_r. }
  split; [intros i; apply elem_of_surviving_rows|].
  split; [apply last_valid_present|]. split; [apply last_valid_gap|].
  split; [apply last_valid_first_missing|].
  split; [|apply dropna_frame_clean].
  intros i name col Hin Hnan Hrow.
  apply elem_of_surviving_rows in Hrow as [_ Hall].
  specialize (Hall name col Hin). by rewrite last_valid_leading in Hall.
Qed.

Lemma clean_data_fills_and_drops_every_column_witness :
  gap_symbol !! "GAP" = Some gap_frame
  ∧ wf_frame gap_frame
  ∧ col_lookup "Date" (columns gap_frame) = Some (of_nat <$> seq 0 3)
  ∧ let rows := surviving_rows (columns gap_frame) (nrows gap_frame) in
    ∃ df',
      clean_data gap_symbol !! "GAP" = Some df'
      ∧ columns df' = (λ p, (p.1, last_valid p.2 <$> rows)) <$> columns gap_frame
      ∧ idx_labels (index df')
        = (λ i, default NaN (idx_labels (index gap_frame) !! i)) <$> rows
      ∧ (∀ i, i ∈ rows ↔
           i < nrows gap_frame
           ∧ ∀ name col, (name, col) ∈ columns gap_frame →
               isnan (last_valid col i) = false)
      ∧ (∀ (col : Series) i a,
           col !! i = Some a → isnan a = false → last_valid col i = a)
      ∧ (∀ (col : Series) i,
           col !! S i = Some NaN → last_valid col (S i) = last_valid col i)
      ∧ (∀ col : Series, col !! 0 = Some NaN → last_valid col 0 = NaN)
      ∧ (∀ i name col, (name, col) ∈ columns gap_frame →
           (∀ j, j ≤ i → col !! j = Some NaN) → i ∉ rows)
      ∧ frame_clean df'.
Proof.
  assert (wf_frame gap_frame) as Hwf by (repeat constructor).
  split; [reflexivity|]. split; [exact Hwf|]. split; [reflexivity|].
  apply (clean_data_fills_and_drops_every_column gap_symbol "GAP" gap_frame
           (of_nat <$> seq 0 3)); [reflexivity|exact Hwf|reflexivity].
Defined.

(** On the sample frame: the gap in the closes takes the close of the day
    before, and the rows that survive are the second and the third. *)
Example gap_frame_filled :
  last_valid [Fin 100; NaN; Fin 102] 1 = Fin 100
  ∧ surviving_rows (columns gap_frame) (nrows gap_frame) = [1; 2].
Proof. split; reflexivity. Qed.

(** In the sample frame the first day has a close and no volume, and it is
    the one row that goes. *)
Example gap_frame_mask :
  dropna_mask (fillna_ffill_frame gap_frame) = [false; true; true].
Proof. reflexivity. Qed.

(** ** Seasonal decomposition *)

Section DecomposeProps.
Context {Decomposition : Type}.
Variable seasonal_decompose : Series → result Decomposition.
Variable plot : Decomposition → result unit.

(** The frame that [decompose_trends] leaves for a symbol. *)
Lemma decompose_symbol_eq symbol df acc :
  decompose_symbol seasonal_decompose plot symbol df acc =
    (<[symbol :=
         match decompose_body seasonal_decompose plot df with
         | (df', Ok _) => (reset_index df').1
         | (df', Raise _) => df'
         end]> acc.1,
     match is_ok (decompose_body seasonal_decompose plot df).2 with
     | Some v => <[symbol := v]> acc.2
     | None => acc.2
     end).
Proof.
  unfold decompose_symbol.
  by destruct (decompose_body seasonal_decompose plot df) as [df' [v|e]].
Qed.

(** When the decomposition or its drawing raises, the body stops after
    [set_index]. *)
Lemma decompose_body_raises df d c e :
  col_lookup "Date" (columns df) = Some d →
  col_lookup "Close" (columns df) = Some c →
  seasonal_decompose c = Raise e
  ∨ (∃ dec, seasonal_decompose c = Ok dec ∧ plot dec = Raise e) →
  decompose_body seasonal_decompose plot df =
    (mkFrame (mkIndex (Some "Date") d) (col_remove "Date" (columns df)), Raise e).
Proof.
  intros Hd Hc Hraise. unfold decompose_body, bind, set_index, getitem, call.
  rewrite Hd. simpl. rewrite col_lookup_remove_ne by done. rewrite Hc.
  destruct Hraise as [->|(dec & -> & ->)]; done.
Qed.

(** When both end, the result is returned for the symbol and [reset_index]
    puts Date back as the first column: no column is added. *)
Lemma decompose_trends_success data s df d c dec :
  data !! s = Some df →
  col_lookup "Date" (columns df) = Some d →
  col_lookup "Close" (columns df) = Some c →
  seasonal_decompose c = Ok dec →
  plot dec = Ok tt →
  (decompose_trends seasonal_decompose plot data).2 !! s = Some dec
  ∧ (decompose_trends seasonal_decompose plot data).1 !! s
    = Some (mkFrame (range_index (length d))
              (("Date", d) :: col_remove "Date" (columns df))).
Proof.
  intros Hs Hd Hc Hdec Hplot.
  assert (decompose_body seasonal_decompose plot df =
            (mkFrame (mkIndex (Some "Date") d) (col_remove "Date" (columns df)),
             Ok dec)) as Hbody.
  { unfold decompose_body, bind, set_index, getitem, call, ret.
    rewrite Hd. simpl. rewrite col_lookup_remove_ne by done.
    by rewrite Hc, Hdec, Hplot. }
  destruct (loop_lookup _ _ _ decompose_symbol_eq data data s) as [Hstore Hout].
  unfold decompose_trends. rewrite Hstore, Hout, Hs. simpl. rewrite Hbody. simpl.
  split; [done|]. f_equal. unfold reset_index. simpl.
  by rewrite col_lookup_remove.
Qed.

(** C9. When the decomposition of a symbol, or the drawing of it, raises,
    [decompose_trends] returns no entry for the symbol and leaves its
    stored frame as [set_index] made it: Date is the index and no longer a
    column, so the stored frame has changed; and what reads the Date column
    afterwards ([clean_data], the two plots that use dates, a second
    [decompose_trends]) raises KeyError on that frame. *)
Theorem decompose_failure_keeps_date_index
    (data : gmap string DataFrame) (s : string) (df : DataFrame)
    (d c : Series) (e : exn) :
  data !! s = Some df →
  col_lookup "Date" (columns df) = Some d →
  col_lookup "Close" (columns df) = Some c →
  seasonal_decompose c = Raise e
  ∨ (∃ dec, seasonal_decompose c = Ok dec ∧ plot dec = Raise e) →
  ∃ df',
    (decompose_trends seasonal_decompose plot data).1 !! s = Some df'
    ∧ (decompose_trends seasonal_decompose plot data).2 !! s = None
    ∧ index df' = mkIndex (Some "Date") d
    ∧ columns df' = col_remove "Date" (columns df)
    ∧ col_lookup "Date" (columns df') = None
    ∧ df' ≠ df
    ∧ (clean_body df').2 = Raise (KeyError "Date")
    ∧ (plot_cumulative_returns_body df').2 = Raise (KeyError "Date")
    ∧ (plot_moving_average_body df').2 = Raise (KeyError "Date")
    ∧ (decompose_body seasonal_decompose plot df').2 = Raise (KeyError "Date").
Proof.
  intros Hs Hd Hc Hraise.
  pose proof (decompose_body_raises df d c e Hd Hc Hraise) as Hbody.
  exists (mkFrame (mkIndex (Some "Date") d) (col_remove "Date" (columns df))).
  destruct (loop_lookup _ _ _ decompose_symbol_eq data data s) as [Hstore Hout].
  unfold decompose_trends. rewrite Hstore, Hout, Hs. simpl. rewrite Hbody. simpl.
  assert (col_lookup "Date" (col_remove "Date" (columns df)) = None) as Hgone
    by apply col_lookup_remove.
  assert (col_lookup "Close" (col_remove "Date" (columns df)) = Some c) as Hclose
    by (by rewrite col_lookup_remove_ne).
  repeat split; try done.
  - intros Heq. rewrite <- Heq in Hd. simpl in Hd. congruence.
  - by rewrite clean_body_no_date.
  - unfold plot_cumulative_returns_body. run_body. rewrite Hclose. run_body.
    by rewrite Hgone.
  - unfold plot_moving_average_body, bind, getitem. simpl. by rewrite Hgone.
  - unfold decompose_body, bind, set_index. simpl. by rewrite Hgone.
Qed.
End DecomposeProps.

Lemma decompose_failure_keeps_date_index_witness :
  one_symbol !! "OK" = Some (price_frame growth_closes)
  ∧ col_lookup "Date" (columns (price_frame growth_closes)) = Some (of_nat <$> seq 0 3)
  ∧ col_lookup "Close" (columns (price_frame growth_closes)) = Some growth_closes
  ∧ (two_cycles_only growth_closes
       = Raise (ValueError "x must have 2 complete cycles requires 504 observations")
     ∨ (∃ dec, two_cycles_only growth_closes = Ok dec
               ∧ plot_nothing dec
                 = Raise (ValueError "x must have 2 complete cycles requires 504 observations")))
  ∧ ∃ df',
      (decompose_trends two_cycles_only plot_nothing one_symbol).1 !! "OK" = Some df'
      ∧ (decompose_trends two_cycles_only plot_nothing one_symbol).2 !! "OK" = None
      ∧ index df' = mkIndex (Some "Date") (of_nat <$> seq 0 3)
      ∧ columns df' = col_remove "Date" (columns (price_frame growth_closes))
      ∧ col_lookup "Date" (columns df') = None
      ∧ df' ≠ price_frame growth_closes
      ∧ (clean_body df').2 = Raise (KeyError "Date")
      ∧ (plot_cumulative_returns_body df').2 = Raise (KeyError "Date")
      ∧ (plot_moving_average_body df').2 = Raise (KeyError "Date")
      ∧ (decompose_body two_cycles_only plot_nothing df').2 = Raise (KeyError "Date").
Proof.
  do 3 (split; [reflexivity|]). split; [left; reflexivity|].
  apply (decompose_failure_keeps_date_index two_cycles_only plot_nothing
           one_symbol "OK" (price_frame growth_closes)
           (of_nat <$> seq 0 3) growth_closes
           (ValueError "x must have 2 complete cycles requires 504 observations"));
    [reflexivity|reflexivity|reflexivity|left; reflexivity].
Defined.

(* ================================================================== *)
(** * Part III: further properties of the analyser *)
(* ================================================================== *)

(** ** Fetching *)

Section FetchProps.
Variable download : string → string → string → result DataFrame.

Lemma fetch_symbol_lookup start_date end_date data symbol s :
  fetch_symbol download start_date end_date data symbol !! s =
    if decide (s = symbol)
    then match fetched download symbol start_date end_date with
         | Some df' => Some df'
         | None => data !! s
         end
    else data !! s.
Proof.
  unfold fetch_symbol, fetched.
  destruct (download symbol start_date end_date) as [df|e].
  - destruct (reset_index df) as [df' [u|e]].
    + case_decide as Hs; [subst; by rewrite lookup_insert_eq|].
      by rewrite lookup_insert_ne.
    + by case_decide.
  - by case_decide.
Qed.

Lemma fetch_data_char symbols start_date end_date data s :
  fetch_data download symbols start_date end_date data !! s
  = (if decide (s ∈ symbols)
     then match fetched download s start_date end_date with
          | Some df' => Some df'
          | None => data !! s
          end
     else data !! s).
Proof.
  unfold fetch_data. revert data.
  induction symbols as [|x xs IH]; intros data; cbn [foldl].
  - case_decide as Hin; [by apply not_elem_of_nil in Hin|done].
  - rewrite IH, fetch_symbol_lookup.
    destruct (decide (s = x)) as [->|Hne].
    + rewrite (decide_True (P := x ∈ x :: xs)) by (by left).
      destruct (fetched download x start_date end_date); by case_decide.
    + destruct (decide (s ∈ xs)) as [Hin|Hnin].
      * rewrite decide_True; [done|by right].
      * rewrite decide_False; [done|].
        intros [?|?]%elem_of_cons; done.
Qed.

(** X1. After [fetch_data] a symbol holds the frame fetched for it when it
    was asked for and its download and [reset_index] ended; in every other
    case it holds what it held before.  In particular a symbol whose
    download raises keeps its earlier frame, if it had one. *)
Theorem fetch_data_lookup
    (symbols : list string) (start_date end_date : string)
    (data : gmap string DataFrame) (s : string) :
  fetch_data download symbols start_date end_date data !! s
    = (if decide (s ∈ symbols)
       then match fetched download s start_date end_date with
            | Some df' => Some df'
            | None => data !! s
            end
       else data !! s)
  ∧ (∀ e, download s start_date end_date = Raise e →
       fetch_data download symbols start_date end_date data !! s = data !! s).
Proof.
  split; [apply fetch_data_char|].
  intros e He. rewrite fetch_data_char. unfold fetched. rewrite He.
  by case_decide.
Qed.

(** X2. A frame that the provider returns under an index named Date, with
    no Date column, is stored with Date as its first column before the
    provider's columns and with rows numbered from 0; it is well formed if
    the provider's frame is, and [clean_data] finds the Date column it
    reads. *)
Theorem fetch_data_stores_date_column
    (symbols : list string) (start_date end_date : string)
    (data : gmap string DataFrame) (s : string) (df : DataFrame) :
  s ∈ symbols →
  download s start_date end_date = Ok df →
  idx_name (index df) = Some "Date" →
  col_lookup "Date" (columns df) = None →
  let df' := mkFrame (range_index (nrows df))
               (("Date", idx_labels (index df)) :: columns df) in
  fetch_data download symbols start_date end_date data !! s = Some df'
  ∧ (wf_frame df → wf_frame df')
  ∧ (clean_body df').2 = Ok tt.
Proof.
  intros Hin Hdl Hname Hnodate df'.
  assert (fetched download s start_date end_date = Some df') as Hf.
  { unfold fetched, reset_index. by rewrite Hdl, Hname, Hnodate. }
  split; [|split].
  - rewrite fetch_data_char, decide_True by done. by rewrite Hf.
  - unfold wf_frame, nrows. subst df'. simpl. intros Hwf.
    rewrite length_fmap, length_seq. constructor; [done|exact Hwf].
  - by rewrite (clean_body_ok df' (idx_labels (index df)) eq_refl).
Qed.
End FetchProps.

Lemma fetch_data_stores_date_column_witness :
  "OK" ∈ ["OK"; "NONE"]
  ∧ one_symbol_provider "OK" "2020-01-01" "2020-12-31" = Ok provider_frame
  ∧ idx_name (index provider_frame) = Some "Date"
  ∧ col_lookup "Date" (columns provider_frame) = None
  ∧ let df' := mkFrame (range_index (nrows provider_frame))
                 (("Date", idx_labels (index provider_frame))
                    :: columns provider_frame) in
    fetch_data one_symbol_provider ["OK"; "NONE"] "2020-01-01" "2020-12-31" init
      !! "OK" = Some df'
    ∧ (wf_frame provider_frame → wf_frame df')
    ∧ (clean_body df').2 = Ok tt.
Proof.
  assert ("OK" ∈ ["OK"; "NONE"]) as Hin by (by left).
  split; [exact Hin|]. do 3 (split; [reflexivity|]).
  apply (fetch_data_stores_date_column one_symbol_provider ["OK"; "NONE"]
           "2020-01-01" "2020-12-31" init "OK" provider_frame);
    [exact Hin|reflexivity..].
Defined.

(** ** Symbols *)

Lemma dom_for_each_symbol {A : Type} (body : M A) (data : gmap string DataFrame) :
  dom (for_each_symbol body data).1 = dom data
  ∧ dom (for_each_symbol body data).2 ⊆ dom data.
Proof.
  split.
  - apply set_eq. intros k. rewrite !elem_of_dom, for_each_symbol_store.
    by rewrite fmap_is_Some.
  - intros k. rewrite !elem_of_dom, for_each_symbol_result.
    destruct (data !! k); [eauto|]. by intros [? ?].
Qed.

(** X3. No method adds a symbol to the store or takes one away, and a
    returned dict has entries for symbols of the store only. *)
Theorem methods_keep_the_symbols (data : gmap string DataFrame) :
  dom (clean_data data) = dom data
  ∧ dom (plot_price_histogram data) = dom data
  ∧ dom (plot_cumulative_returns data) = dom data
  ∧ dom (plot_moving_average data) = dom data
  ∧ (∀ window, dom (calculate_moving_average window data) = dom data)
  ∧ (∀ st, dom (calculate st data).1 = dom data
           ∧ dom (calculate st data).2 ⊆ dom data)
  ∧ (∀ (D : Type) (seasonal_decompose : Series → result D)
       (plot : D → result unit),
       dom (decompose_trends seasonal_decompose plot data).1 = dom data
       ∧ dom (decompose_trends seasonal_decompose plot data).2 ⊆ dom data).
Proof.
  do 4 (split; [apply dom_for_each_symbol|]).
  split; [intros window; apply dom_for_each_symbol|].
  split; [intros st; destruct st; apply dom_for_each_symbol|].
  intros D seasonal_decompose plot. split.
  - apply set_eq. intros k. rewrite !elem_of_dom. unfold decompose_trends.
    destruct (loop_lookup _ _ _ (decompose_symbol_eq seasonal_decompose plot)
                data data k) as [-> _].
    destruct (data !! k); [|done]. split; eauto.
  - intros k. rewrite !elem_of_dom. unfold decompose_trends.
    destruct (loop_lookup _ _ _ (decompose_symbol_eq seasonal_decompose plot)
                data data k) as [_ ->].
    destruct (data !! k); [eauto|]. by intros [? ?].
Qed.

(** ** The plots *)

Lemma plot_price_histogram_body_frame df : (plot_price_histogram_body df).1 = df.
Proof.
  unfold plot_price_histogram_body, bind, getitem, ret.
  by destruct (col_lookup "Close" (columns df)).
Qed.

Lemma plot_moving_average_body_frame df : (plot_moving_average_body df).1 = df.
Proof.
  unfold plot_moving_average_body, bind, getitem, ret.
  destruct (col_lookup "Date" (columns df)) eqn:Hd; simpl; [|done].
  destruct (col_lookup "Close" (columns df)); simpl; [|done].
  rewrite Hd. simpl.
  by destruct (col_lookup "50-Day MA" (columns df)).
Qed.

(** X4. The histogram and the moving-average plot only read: they return
    the store as they found it, whether their body ends or raises. *)
Theorem reading_plots_leave_the_store (data : gmap string DataFrame) :
  plot_price_histogram data = data ∧ plot_moving_average data = data.
Proof.
  split; apply map_eq; intros k.
  - unfold plot_price_histogram. rewrite for_each_symbol_store.
    destruct (data !! k) as [df|]; [|done]. simpl.
    by rewrite plot_price_histogram_body_frame.
  - unfold plot_moving_average. rewrite for_each_symbol_store.
    destruct (data !! k) as [df|]; [|done]. simpl.
    by rewrite plot_moving_average_body_frame.
Qed.

Lemma length_append (s1 s2 : string) :
  String.length (s1 +:+ s2) = String.length s1 + String.length s2.
Proof. induction s1 as [|a s1 IH]; simpl; [done|]. by rewrite IH. Qed.

Lemma append_inv_tail (s1 s2 t : string) : s1 +:+ t = s2 +:+ t → s1 = s2.
Proof.
  revert s2. induction s1 as [|a s1 IH]; intros [|b s2] H; simpl in H.
  - done.
  - apply (f_equal String.length) in H. simpl in H.
    rewrite !length_append in H. simpl in H. lia.
  - apply (f_equal String.length) in H. simpl in H.
    rewrite !length_append in H. simpl in H. lia.
  - injection H as -> H. f_equal. by apply IH.
Qed.

(** Only the window 50 gives the column name that the plot reads. *)
Lemma ma_name_50 window : ma_name window = "50-Day MA" → window = 50.
Proof.
  unfold ma_name. intros H.
  apply (append_inv_tail _ "50" "-Day MA") in H.
  apply DecimalNat.Unsigned.to_uint_inj.
  pose proof (NilZero.usu_gen (Nat.to_uint window)) as Hu.
  rewrite H in Hu. destruct Hu as [Hu|Hu]; [|discriminate Hu].
  by injection Hu as <-.
Qed.

(** X5. [plot_moving_average] reads the column of the 50-day window
    whatever window the average was calculated with: after
    [calculate_moving_average] with window 50 its body ends on a frame with
    Date and Close columns, and after any other window it raises
    KeyError('50-Day MA'), unless the frame had such a column before. *)
Theorem plot_moving_average_needs_window_50
    (window : nat) (data : gmap string DataFrame) (s : string)
    (df : DataFrame) (d c : Series) :
  data !! s = Some df →
  col_lookup "Date" (columns df) = Some d →
  col_lookup "Close" (columns df) = Some c →
  ∃ df',
    calculate_moving_average window data !! s = Some df'
    ∧ (window = 50 → (plot_moving_average_body df').2 = Ok tt)
    ∧ (window ≠ 50 → col_lookup "50-Day MA" (columns df) = None →
       (plot_moving_average_body df').2 = Raise (KeyError "50-Day MA")).
Proof.
  intros Hs Hd Hc. exists (moving_average_body window df).1. split.
  { unfold calculate_moving_average. by rewrite for_each_symbol_store, Hs. }
  rewrite (moving_average_body_ok window df c Hc). simpl.
  assert (ma_name window ≠ "Date") as HnD.
  { unfold ma_name. intros H. apply (f_equal String.length) in H.
    rewrite length_append in H. simpl in H. lia. }
  assert (ma_name window ≠ "Close") as HnC.
  { unfold ma_name. intros H. apply (f_equal String.length) in H.
    rewrite length_append in H. simpl in H. lia. }
  split.
  - intros ->. unfold plot_moving_average_body, bind, getitem, ret. simpl.
    repeat (rewrite ?col_lookup_assign_ne by done; rewrite ?Hd, ?Hc; simpl).
    change (ma_name 50) with "50-Day MA". by rewrite col_lookup_assign_eq.
  - intros Hw H50. unfold plot_moving_average_body, bind, getitem, ret. simpl.
    repeat (rewrite ?col_lookup_assign_ne by done; rewrite ?Hd, ?Hc; simpl).
    rewrite col_lookup_assign_ne; [by rewrite H50|].
    intros H. by apply ma_name_50 in H.
Qed.

Lemma plot_moving_average_needs_window_50_witness :
  one_symbol !! "OK" = Some (price_frame growth_closes)
  ∧ col_lookup "Date" (columns (price_frame growth_closes)) = Some (of_nat <$> seq 0 3)
  ∧ col_lookup "Close" (columns (price_frame growth_closes)) = Some growth_closes
  ∧ ∃ df',
      calculate_moving_average 20 one_symbol !! "OK" = Some df'
      ∧ (20 = 50 → (plot_moving_average_body df').2 = Ok tt)
      ∧ (20 ≠ 50 →
         col_lookup "50-Day MA" (columns (price_frame growth_closes)) = None →
         (plot_moving_average_body df').2 = Raise (KeyError "50-Day MA")).
Proof.
  do 3 (split; [reflexivity|]).
  apply (plot_moving_average_needs_window_50 20 one_symbol "OK"
           (price_frame growth_closes) (of_nat <$> seq 0 3) growth_closes);
    reflexivity.
Defined.

(** X6. [plot_cumulative_returns] writes before it reads: on a frame with a
    Close column and no Date column its body raises KeyError('Date'), and
    the Daily Return and Cumulative Return columns are in the stored frame
    all the same. *)
Theorem plot_cumulative_returns_writes_before_failing
    (data : gmap string DataFrame) (s : string) (df : DataFrame) (c : Series) :
  data !! s = Some df →
  col_lookup "Close" (columns df) = Some c →
  col_lookup "Date" (columns df) = None →
  (plot_cumulative_returns_body df).2 = Raise (KeyError "Date")
  ∧ ∃ df',
      plot_cumulative_returns data !! s = Some df'
      ∧ col_lookup "Daily Return" (columns df') = Some (pct_change c)
      ∧ col_lookup "Cumulative Return" (columns df')
        = Some (cumulative_return (pct_change c)).
Proof.
  intros Hs Hc Hd. split.
  - unfold plot_cumulative_returns_body. run_body. rewrite Hc. run_body.
    by rewrite Hd.
  - exists (plot_cumulative_returns_body df).1. split.
    { unfold plot_cumulative_returns. by rewrite for_each_symbol_store, Hs. }
    rewrite (plot_cumulative_returns_body_frame df c Hc). simpl.
    by run_body.
Qed.

Lemma plot_cumulative_returns_writes_before_failing_witness :
  indexed_symbol !! "IDX" = Some provider_frame
  ∧ col_lookup "Close" (columns provider_frame) = Some [Fin 100; Fin 110]
  ∧ col_lookup "Date" (columns provider_frame) = None
  ∧ (plot_cumulative_returns_body provider_frame).2 = Raise (KeyError "Date")
  ∧ ∃ df',
      plot_cumulative_returns indexed_symbol !! "IDX" = Some df'
      ∧ col_lookup "Daily Return" (columns df')
        = Some (pct_change [Fin 100; Fin 110])
      ∧ col_lookup "Cumulative Return" (columns df')
        = Some (cumulative_return (pct_change [Fin 100; Fin 110])).
Proof.
  do 3 (split; [reflexivity|]).
  apply (plot_cumulative_returns_writes_before_failing indexed_symbol "IDX"
           provider_frame [Fin 100; Fin 110]); reflexivity.
Defined.

(** ** Statistics run one after another *)

Lemma stat_body_run st df :
  stat_body st df =
    match col_lookup "Close" (columns df) with
    | Some c =>
        (mkFrame (index df)
           match st with
           | Volatility | SharpeRatio =>
               col_assign "Daily Return" (pct_change c) (columns df)
           | MaxDrawdown =>
               let cr := cumulative_return (pct_change c) in
               col_assign "Drawdown" (ssub cr (cummax cr))
                 (col_assign "Peak" (cummax cr)
                    (col_assign "Cumulative Return" cr (columns df)))
           end,
         Ok (stat_value st c))
    | None => (df, Raise (KeyError "Close"))
    end.
Proof.
  destruct (col_lookup "Close" (columns df)) as [c|] eqn:Hc.
  - destruct st; simpl.
    + by apply volatility_body_ok.
    + by apply sharpe_ratio_body_ok.
    + by apply max_drawdown_body_ok.
  - by apply stat_body_no_close.
Qed.

(** No statistic touches the Close column. *)
Lemma stat_body_keeps_close st df :
  col_lookup "Close" (columns (stat_body st df).1)
  = col_lookup "Close" (columns df).
Proof.
  rewrite stat_body_run.
  destruct (col_lookup "Close" (columns df)) as [c|] eqn:Hc; [|done].
  destruct st; simpl; by rewrite !col_lookup_assign_ne.
Qed.

Lemma ma_name_not_close window : ma_name window ≠ "Close".
Proof.
  unfold ma_name. intros H. apply (f_equal String.length) in H.
  rewrite length_append in H. simpl in H. lia.
Qed.

Lemma moving_average_body_keeps_close window df :
  col_lookup "Close" (columns (moving_average_body window df).1)
  = col_lookup "Close" (columns df).
Proof.
  destruct (col_lookup "Close" (columns df)) as [c|] eqn:Hc.
  - rewrite (moving_average_body_ok window df c Hc). simpl.
    rewrite col_lookup_assign_ne; [done|apply ma_name_not_close].
  - unfold moving_average_body, bind, getitem. by rewrite Hc.
Qed.

Lemma stat_result_of_close st df df' :
  col_lookup "Close" (columns df') = col_lookup "Close" (columns df) →
  (stat_body st df').2 = (stat_body st df).2.
Proof.
  intros H. rewrite !stat_body_run, H.
  by destruct (col_lookup "Close" (columns df)).
Qed.

(** X7. The values that a statistic returns do not depend on what was
    calculated before it: after any other statistic, or after a moving
    average of any window, it returns the dict it returns on the store as
    it was. *)
Theorem statistics_do_not_interfere
    (st1 st2 : statistic) (window : nat) (data : gmap string DataFrame) :
  (calculate st2 (calculate st1 data).1).2 = (calculate st2 data).2
  ∧ (calculate st2 (calculate_moving_average window data)).2
    = (calculate st2 data).2.
Proof.
  split; apply map_eq; intros k; rewrite !calculate_result.
  - rewrite calculate_store. destruct (data !! k) as [df|]; [|done]. simpl.
    f_equal. apply stat_result_of_close, stat_body_keeps_close.
  - unfold calculate_moving_average. rewrite for_each_symbol_store.
    destruct (data !! k) as [df|]; [|done]. simpl.
    f_equal. apply stat_result_of_close, moving_average_body_keeps_close.
Qed.

(** X8. A statistic run a second time leaves the store as its first run
    left it and returns the same dict. *)
Theorem statistics_are_idempotent (st : statistic) (data : gmap string DataFrame) :
  calculate st (calculate st data).1 = calculate st data.
Proof.
  assert (∀ df, stat_body st (stat_body st df).1 = stat_body st df) as Hbody.
  { intros df. rewrite (stat_body_run st (stat_body st df).1).
    rewrite stat_body_keeps_close. rewrite (stat_body_run st df).
    destruct (col_lookup "Close" (columns df)) as [c|] eqn:Hc; simpl; [|done].
    f_equal. f_equal. destruct st.
    - apply col_assign_same, col_lookup_assign_eq.
    - apply col_assign_same, col_lookup_assign_eq.
    - simpl.
      rewrite (col_assign_same "Cumulative Return");
        [|rewrite 2!col_lookup_assign_ne by done; apply col_lookup_assign_eq].
      rewrite (col_assign_same "Peak");
        [|rewrite col_lookup_assign_ne by done; apply col_lookup_assign_eq].
      apply col_assign_same, col_lookup_assign_eq. }
  apply injective_projections; apply map_eq; intros k.
  - rewrite !calculate_store. destruct (data !! k) as [df|]; [|done].
    simpl. by rewrite Hbody.
  - rewrite !calculate_result, calculate_store.
    destruct (data !! k) as [df|]; [|done]. simpl. by rewrite Hbody.
Qed.

(** ** Volatility and Sharpe ratio at the edges *)

Lemma length_valid_le (s : Series) : length (valid s) ≤ length s.
Proof.
  induction s as [|a s IH]; simpl; [done|]. destruct (isnan a); simpl; lia.
Qed.

Lemma pct_change_head (s : Series) :
  ∀ a, pct_change s !! 0 = Some a → a = NaN.
Proof.
  unfold pct_change, shift. destruct (ffill s) as [|b l]; [done|].
  simpl. unfold day_return at 1. rewrite ndiv_nan_r. by intros a [= <-].
Qed.

(** At most all rows but the first have a return. *)
Lemma count_pct_change_le (s : Series) : count (pct_change s) ≤ pred (length s).
Proof.
  rewrite <- (length_pct_change s). pose proof (pct_change_head s) as Hhead.
  unfold count. destruct (pct_change s) as [|a r]; [done|].
  rewrite (Hhead a eq_refl). simpl. apply length_valid_le.
Qed.

Lemma std_few_values (r : Series) : count r ≤ 1 → std r = NaN.
Proof.
  unfold std, var, count. intros H.
  by rewrite (proj2 (Nat.leb_le _ _) H).
Qed.

(** X9. A symbol with one or two rows (or none) is not a failure for the
    volatility and the Sharpe ratio: both dicts have an entry for it, and
    the entry is NaN, because fewer than two daily returns are defined. *)
Theorem short_series_give_nan
    (data : gmap string DataFrame) (s : string) (df : DataFrame) (c : Series) :
  data !! s = Some df →
  col_lookup "Close" (columns df) = Some c →
  length c ≤ 2 →
  (calculate_volatility data).2 !! s = Some NaN
  ∧ (calculate_sharpe_ratio data).2 !! s = Some NaN.
Proof.
  intros Hs Hc Hlen.
  assert (std (pct_change c) = NaN) as Hstd.
  { apply std_few_values. pose proof (count_pct_change_le c). lia. }
  split.
  - unfold calculate_volatility. rewrite for_each_symbol_result, Hs. simpl.
    rewrite (volatility_body_ok df c Hc). simpl. by rewrite Hstd.
  - unfold calculate_sharpe_ratio. rewrite for_each_symbol_result, Hs. simpl.
    rewrite (sharpe_ratio_body_ok df c Hc). simpl. rewrite Hstd.
    by rewrite ndiv_nan_r.
Qed.

Lemma short_series_give_nan_witness :
  single_day !! "DAY" = Some (price_frame [Fin 100])
  ∧ col_lookup "Close" (columns (price_frame [Fin 100])) = Some [Fin 100]
  ∧ length [Fin 100] ≤ 2
  ∧ (calculate_volatility single_day).2 !! "DAY" = Some NaN
  ∧ (calculate_sharpe_ratio single_day).2 !! "DAY" = Some NaN.
Proof.
  assert (length [Fin 100] ≤ 2) as Hlen by (simpl; lia).
  do 2 (split; [reflexivity|]). split; [exact Hlen|].
  apply (short_series_give_nan single_day "DAY" (price_frame [Fin 100]) [Fin 100]);
    [reflexivity|reflexivity|exact Hlen].
Defined.

Lemma nsqrt_range a :
  nsqrt a = NaN ∨ nsqrt a = PosInf ∨ ∃ x, nsqrt a = Fin x ∧ (0 <= x)%R.
Proof.
  destruct a as [| | |x]; simpl; auto.
  destruct (Rlt_dec x 0); [auto|].
  right. right. exists (sqrt x). split; [done|apply sqrt_pos].
Qed.

(** X10. A volatility that [calculate_volatility] returns is never negative
    and never -inf: it is NaN, +inf or a finite number that is at least
    zero. *)
Theorem volatility_is_not_negative
    (data : gmap string DataFrame) (s : string) (v : num) :
  (calculate_volatility data).2 !! s = Some v →
  v = NaN ∨ v = PosInf ∨ ∃ x, v = Fin x ∧ (0 <= x)%R.
Proof.
  unfold calculate_volatility. rewrite for_each_symbol_result.
  destruct (data !! s) as [df|]; [|done]. simpl.
  change volatility_body with (stat_body Volatility). rewrite stat_body_run.
  destruct (col_lookup "Close" (columns df)) as [c|]; [|done].
  simpl. intros [= <-]. apply nsqrt_range.
Qed.

Lemma volatility_is_not_negative_witness :
  (calculate_volatility one_symbol).2 !! "OK"
    = Some (std (pct_change growth_closes))
  ∧ (std (pct_change growth_closes) = NaN
     ∨ std (pct_change growth_closes) = PosInf
     ∨ ∃ x, std (pct_change growth_closes) = Fin x ∧ (0 <= x)%R).
Proof.
  assert ((calculate_volatility one_symbol).2 !! "OK"
          = Some (std (pct_change growth_closes))) as H.
  { unfold calculate_volatility. rewrite for_each_symbol_result. reflexivity. }
  split; [exact H|].
  exact (volatility_is_not_negative one_symbol "OK" _ H).
Defined.

(** ** The first drawdown *)

Module B64Drawdown.
Import PrimFloat FloatOps SpecFloat.
Local Open Scope float_scope.

Lemma sub_self (x : float) : is_nan (x - x) = true ∨ x - x = zero.
Proof.
  destruct (Prim2SF x) as [b|b| |b m e] eqn:Hx.
  - right. apply FloatAxioms.Prim2SF_inj.
    rewrite FloatAxioms.sub_spec, Hx. by destruct b.
  - left. apply B64Facts.is_nan_of_class.
    rewrite FloatAxioms.sub_spec, Hx. by destruct b.
  - left. apply B64Facts.is_nan_of_class.
    by rewrite FloatAxioms.sub_spec, Hx.
  - right. apply FloatAxioms.Prim2SF_inj.
    rewrite FloatAxioms.sub_spec, Hx.
    unfold FloatAxioms.SF64sub, SFsub. rewrite Z.sub_diag. reflexivity.
Qed.

Lemma sub_nan (x : float) : is_nan (x - nan) = true.
Proof.
  apply B64Facts.is_nan_of_class. rewrite FloatAxioms.sub_spec.
  replace (Prim2SF nan) with S754_nan by reflexivity.
  by destruct (Prim2SF x) as [[]|[]| |[] ? ?].
Qed.

Lemma neg_infinity_least (x : float) :
  is_nan x = false → (neg_infinity <=? x) = true.
Proof.
  unfold is_nan. rewrite FloatAxioms.eqb_spec, FloatAxioms.leb_spec.
  replace (Prim2SF neg_infinity) with (S754_infinity true) by reflexivity.
  destruct (Prim2SF x) as [[]|[]| |[] ? ?]; try done.
Qed.

(** Over two days the drawdown of the second day is the second cumulative
    return minus itself. *)
Lemma max_drawdown_two_days (c0 c1 : float) :
  is_nan (B64.max_drawdown [c0; c1]) = true
  ∨ B64.max_drawdown [c0; c1] = zero.
Proof.
  unfold B64.max_drawdown, B64.pct_change, B64.shift, B64.ffill.
  cbn [B64.ffill_from length take zip_with].
  set (b0 := if is_nan c0 then nan else c0).
  set (b1 := if is_nan c1 then b0 else c1).
  unfold B64.cumulative_return, B64.cumprod.
  cbn [fmap list_fmap B64.cumprod_from].
  rewrite B64Facts.one_plus_first_return_nan.
  set (p1 := 1 + B64.day_return b1 b0).
  assert (∃ q1, (if is_nan p1 then [nan] else [1 * p1]) = [q1]) as [q1 ->].
  { destruct (is_nan p1); eauto. }
  cbn [fmap list_fmap]. unfold B64.cummax.
  set (cr1 := q1 - 1).
  cbn [B64.cummax_from].
  replace (is_nan (nan - 1)) with true by reflexivity.
  unfold B64.ssub. cbn [zip_with]. unfold B64.smin. cbn [B64.valid].
  replace (is_nan (nan - 1 - nan)) with true by reflexivity.
  destruct (is_nan cr1) eqn:Hcr.
  - cbn [zip_with B64.valid]. rewrite sub_nan. by left.
  - unfold B64.fmax. rewrite (neg_infinity_least _ Hcr).
    cbn [zip_with B64.valid].
    destruct (sub_self cr1) as [H|H].
    + rewrite H. by left.
    + rewrite H. right. reflexivity.
Qed.
End B64Drawdown.

Lemma nsub_self (a : num) : nsub a a = NaN ∨ nsub a a = Fin 0.
Proof.
  destruct a as [| | |x]; simpl; auto.
  right. unfold nsub. simpl. f_equal. lra.
Qed.

(** The peak on the second row is the second cumulative return itself. *)
Lemma second_drawdown (cr1 : num) (rest : Series) :
  ∃ d, ssub (NaN :: cr1 :: rest) (cummax (NaN :: cr1 :: rest))
       = NaN :: d :: ssub rest (drop 2 (cummax (NaN :: cr1 :: rest)))
       ∧ (d = NaN ∨ d = Fin 0).
Proof.
  unfold cummax. cbn [cummax_from isnan].
  destruct (isnan cr1) eqn:Hnan.
  - destruct cr1; try done. exists NaN. split; [reflexivity|by left].
  - assert (nmax NegInf cr1 = cr1) as -> by (by destruct cr1).
    exists (nsub cr1 cr1). split; [reflexivity|apply nsub_self].
Qed.

Lemma cumulative_return_two_rows (c : Series) :
  2 ≤ length c →
  ∃ cr1 rest, cumulative_return (pct_change c) = NaN :: cr1 :: rest
              ∧ length rest = length c - 2.
Proof.
  intros Hlen.
  pose proof (length_cumulative_return (pct_change c)) as Hl.
  rewrite length_pct_change in Hl.
  pose proof (pct_change_head c) as Hhead.
  destruct (pct_change c) as [|a r]; [simpl in Hl; lia|].
  rewrite (Hhead a eq_refl) in *. rewrite cumulative_return_nan_cons in *.
  simpl in Hl.
  destruct (ssub_scalar _ _) as [|cr1 rest]; [simpl in Hl; lia|].
  exists cr1, rest. split; [done|]. simpl in Hl. lia.
Qed.

(** X11. The first close is never the peak: the peak starts at the first
    cumulative return that is defined, so on every Close column Drawdown[1]
    is 0 or NaN, and for exactly two rows [calculate_max_drawdown] returns
    0 or NaN and never a negative number, a fall included.  The same holds
    of the binary64 computation on any two closes: the result is +0, or
    NaN when the second cumulative return is not finite. *)
Theorem first_drawdown_is_zero
    (data : gmap string DataFrame) (s : string) (df : DataFrame) (c : Series) :
  data !! s = Some df →
  col_lookup "Close" (columns df) = Some c →
  let cr := cumulative_return (pct_change c) in
  (∀ d, ssub cr (cummax cr) !! 1 = Some d → d = NaN ∨ d = Fin 0)
  ∧ (length c = 2 →
     ∃ v, (calculate_max_drawdown data).2 !! s = Some v
          ∧ (v = NaN ∨ v = Fin 0))
  ∧ (∀ c0 c1 : PrimFloat.float,
       let v := B64.max_drawdown [c0; c1] in
       PrimFloat.is_nan v = true ∨ v = PrimFloat.zero).
Proof.
  intros Hs Hc cr.
  assert ((calculate_max_drawdown data).2 !! s = Some (smin (ssub cr (cummax cr))))
    as Hres.
  { unfold calculate_max_drawdown. rewrite for_each_symbol_result, Hs. simpl.
    by rewrite (max_drawdown_body_ok df c Hc). }
  split; [|split].
  - intros d Hd.
    destruct (decide (2 ≤ length c)) as [Hlen|Hlen].
    + destruct (cumulative_return_two_rows c Hlen) as (cr1 & rest & Hcr & _).
      fold cr in Hcr. rewrite Hcr in Hd.
      destruct (second_drawdown cr1 rest) as (d' & Hdd & Hd').
      rewrite Hdd in Hd. simpl in Hd. by injection Hd as <-.
    + apply lookup_lt_Some in Hd. unfold ssub in Hd.
      rewrite length_zip_with in Hd. unfold cr in Hd.
      rewrite length_cumulative_return, length_pct_change in Hd. lia.
  - intros Hlen. eexists. split; [exact Hres|].
    assert (2 ≤ length c) as Hlen' by lia.
    destruct (cumulative_return_two_rows c Hlen') as (cr1 & rest & Hcr & Hrest).
    fold cr in Hcr. rewrite Hcr.
    destruct rest; [|simpl in Hrest; lia].
    destruct (second_drawdown cr1 []) as (d' & Hdd & Hd').
    rewrite Hdd. simpl. unfold smin.
    destruct Hd' as [->| ->]; simpl; auto.
  - intros c0 c1. apply B64Drawdown.max_drawdown_two_days.
Qed.

Lemma first_drawdown_is_zero_witness :
  falling_symbol !! "FALL" = Some (price_frame [Fin 100; Fin 50])
  ∧ col_lookup "Close" (columns (price_frame [Fin 100; Fin 50]))
    = Some [Fin 100; Fin 50]
  ∧ let cr := cumulative_return (pct_change [Fin 100; Fin 50]) in
    (∀ d, ssub cr (cummax cr) !! 1 = Some d → d = NaN ∨ d = Fin 0)
    ∧ (length [Fin 100; Fin 50] = 2 →
       ∃ v, (calculate_max_drawdown falling_symbol).2 !! "FALL" = Some v
            ∧ (v = NaN ∨ v = Fin 0))
    ∧ (∀ c0 c1 : PrimFloat.float,
         let v := B64.max_drawdown [c0; c1] in
         PrimFloat.is_nan v = true ∨ v = PrimFloat.zero).
Proof.
  do 2 (split; [reflexivity|]).
  apply (first_drawdown_is_zero falling_symbol "FALL"
           (price_frame [Fin 100; Fin 50]) [Fin 100; Fin 50]);
    reflexivity.
Defined.

(** ** Cleaning after a statistic *)

Lemma ffill_tail_clean (s : Series) :
  Forall (λ a, isnan a = false) (tail s) → ffill s = s.
Proof.
  destruct s as [|a s]; [done|]. simpl. intros H. unfold ffill. simpl.
  assert ((if isnan a then NaN else a) = a) as -> by (by destruct a).
  by rewrite (ffill_from_id _ _ H).
Qed.

Lemma col_lookup_fmap (f : Series → Series) name cols :
  col_lookup name ((λ p, (p.1, f p.2)) <$> cols) = f <$> col_lookup name cols.
Proof.
  induction cols as [|[n c] cols IH]; [done|]. simpl.
  by destruct (decide (n = name)).
Qed.

Lemma elem_of_col_assign name c cols p :
  p ∈ col_assign name c cols → p = (name, c) ∨ p ∈ cols.
Proof.
  induction cols as [|[n c0] cols IH]; simpl.
  - intros ->%list_elem_of_singleton. by left.
  - destruct (decide (n = name)) as [->|Hne].
    + intros [->|H]%elem_of_cons; [by left|right; by right].
    + intros [->|H]%elem_of_cons; [right; by left|].
      destruct (IH H) as [->|H']; [by left|right; by right].
Qed.

Lemma col_lookup_elem name c cols :
  col_lookup name cols = Some c → (name, c) ∈ cols.
Proof.
  induction cols as [|[n c0] cols IH]; simpl; [done|].
  destruct (decide (n = name)) as [->|Hne].
  - intros [= ->]. by left.
  - intros H. right. by apply IH.
Qed.

Lemma col_assign_elem name c cols : (name, c) ∈ col_assign name c cols.
Proof.
  induction cols as [|[n c0] cols IH]; simpl; [by left|].
  destruct (decide (n = name)) as [->|Hne]; [by left|by right].
Qed.

(** A mask that refuses the first row only keeps the tail. *)
Lemma keep_rows_tail {A : Type} (mask : list bool) (l : list A) :
  length l = length mask →
  (∀ b, mask !! 0 = Some b → b = false) →
  (∀ i b, mask !! S i = Some b → b = true) →
  keep_rows mask l = tail l.
Proof.
  intros Hlen H0 HS. destruct mask as [|b mask], l as [|a l]; try done.
  rewrite (H0 b eq_refl). simpl. apply keep_rows_all.
  - apply Forall_lookup. intros i b' Hb'. by apply (HS i).
  - simpl in Hlen. lia.
Qed.

Lemma pct_change_tail_notnan (c : Series) :
  Forall is_price c → Forall (λ a, isnan a = false) (tail (pct_change c)).
Proof.
  intros Hprice. destruct c as [|a0 rest]; [constructor|].
  rewrite (pct_change_cons a0 rest (Forall_price_notnan _ Hprice)). simpl.
  by apply day_returns_notnan.
Qed.

Lemma fillna_ffill_tail_clean df :
  Forall (λ p, Forall (λ a, isnan a = false) (tail p.2)) (columns df) →
  fillna_ffill_frame df = df.
Proof.
  destruct df as [idx cols]. unfold fillna_ffill_frame. simpl. intros H.
  f_equal. induction H as [|[n col] cols Hcol _ IH]; [done|].
  rewrite fmap_cons. simpl in Hcol |- *.
  rewrite (ffill_tail_clean col Hcol). f_equal. exact IH.
Qed.

(** A frame whose columns have no NaN past the first row, and one column
    with NaN in the first row, loses exactly its first row to [dropna]. *)
Lemma dropna_first_row df name r :
  wf_frame df →
  Forall (λ p, Forall (λ a, isnan a = false) (tail p.2)) (columns df) →
  (name, r) ∈ columns df →
  (∀ a, r !! 0 = Some a → a = NaN) →
  dropna_frame df =
    mkFrame (mkIndex (idx_name (index df)) (tail (idx_labels (index df))))
            ((λ p, (p.1, tail p.2)) <$> columns df).
Proof.
  intros Hwf Htail Hin Hhead.
  assert (∀ b, dropna_mask df !! 0 = Some b → b = false) as H0.
  { intros b Hb.
    assert (0 < nrows df) as Hlt.
    { rewrite <- length_dropna_mask. by apply lookup_lt_Some in Hb. }
    rewrite (dropna_mask_lookup df 0 Hlt) in Hb. injection Hb as <-.
    apply not_true_is_false. intros Hrow.
    pose proof (proj1 (row_complete_true _ _) Hrow name r Hin) as Hnan.
    pose proof (proj1 (Forall_forall _ _) Hwf _ Hin) as Hlen. simpl in Hlen.
    destruct r as [|a r]; [simpl in Hlen; lia|].
    simpl in Hnan. by rewrite (Hhead a eq_refl) in Hnan. }
  assert (∀ i b, dropna_mask df !! S i = Some b → b = true) as HS.
  { intros i b Hb.
    assert (S i < nrows df) as Hlt.
    { rewrite <- length_dropna_mask. by apply lookup_lt_Some in Hb. }
    rewrite (dropna_mask_lookup df (S i) Hlt) in Hb. injection Hb as <-.
    apply row_complete_true. intros n col Hcol.
    pose proof (proj1 (Forall_forall _ _) Hwf _ Hcol) as Hlen.
    pose proof (proj1 (Forall_forall _ _) Htail _ Hcol) as Hcl.
    simpl in Hlen, Hcl. destruct col as [|a col]; [simpl in Hlen; lia|].
    simpl in Hcl |- *. destruct (col !! i) as [x|] eqn:Hx.
    - simpl. by apply (Forall_lookup_1 _ _ _ _ Hcl) in Hx.
    - apply lookup_ge_None in Hx. simpl in Hlen. lia. }
  unfold dropna_frame. f_equal.
  - f_equal. apply keep_rows_tail; [by rewrite length_dropna_mask|done..].
  - apply list_fmap_ext. intros i [n col] Hcol. simpl. f_equal.
    apply keep_rows_tail; [|done..]. rewrite length_dropna_mask.
    apply list_elem_of_lookup_2 in Hcol.
    exact (proj1 (Forall_forall _ _) Hwf _ Hcol).
Qed.

(** X12. [clean_data] is not neutral after a statistic.  A frame of
    prices without missing values, which [clean_data] leaves as it is,
    loses its first row when [clean_data] runs after
    [calculate_volatility]: the Daily Return column has no value in that
    row, so the row is dropped from every column, labels included. *)
Theorem clean_after_volatility_drops_first_row
    (data : gmap string DataFrame) (s : string) (df : DataFrame) (c d : Series) :
  data !! s = Some df →
  wf_frame df →
  frame_clean df →
  col_lookup "Close" (columns df) = Some c →
  col_lookup "Date" (columns df) = Some d →
  Forall is_price c →
  clean_data data !! s = Some df
  ∧ ∃ df',
      clean_data (calculate_volatility data).1 !! s = Some df'
      ∧ idx_labels (index df') = tail (idx_labels (index df))
      ∧ col_lookup "Close" (columns df') = Some (tail c)
      ∧ col_lookup "Date" (columns df') = Some (tail d)
      ∧ col_lookup "Daily Return" (columns df') = Some (tail (pct_change c)).
Proof.
  intros Hs Hwf Hclean Hc Hd Hprice. split.
  { rewrite clean_data_lookup, Hs. simpl. f_equal. by apply clean_body_fixed. }
  set (cols1 := col_assign "Daily Return" (pct_change c) (columns df)).
  set (df1 := mkFrame (index df) cols1).
  assert (wf_frame df1) as Hwf1.
  { apply Forall_forall. intros p [->|Hp]%elem_of_col_assign.
    - simpl. rewrite length_pct_change.
      exact (proj1 (Forall_forall _ _) Hwf ("Close", c)
               (col_lookup_elem _ _ _ Hc)).
    - exact (proj1 (Forall_forall _ _) Hwf p Hp). }
  assert (Forall (λ p, Forall (λ a, isnan a = false) (tail p.2)) cols1) as Htail.
  { apply Forall_forall. intros p [->|Hp]%elem_of_col_assign.
    - simpl. by apply pct_change_tail_notnan.
    - pose proof (proj1 (Forall_forall _ _) Hclean p Hp) as Hcl. simpl in Hcl.
      destruct (p.2); [constructor|]. by apply Forall_cons in Hcl as [_ ?]. }
  assert (fillna_ffill_frame df1 = df1) as Hfill.
  { by apply fillna_ffill_tail_clean. }
  exists (mkFrame (mkIndex (idx_name (index df)) (tail (idx_labels (index df))))
            ((λ p, (p.1, tail p.2)) <$> cols1)).
  split.
  { rewrite clean_data_lookup. unfold calculate_volatility.
    rewrite for_each_symbol_store, Hs. simpl.
    rewrite (volatility_body_ok df c Hc). simpl. fold cols1. fold df1.
    assert (col_lookup "Date" (columns df1) = Some d) as Hd1.
    { unfold df1, cols1. simpl. by rewrite col_lookup_assign_ne. }
    rewrite (clean_body_ok df1 d Hd1). simpl. rewrite Hfill. f_equal.
    apply (dropna_first_row df1 "Daily Return" (pct_change c) Hwf1 Htail).
    - apply col_assign_elem.
    - apply pct_change_head. }
  simpl. split; [done|].
  rewrite !col_lookup_fmap. unfold cols1.
  rewrite !col_lookup_assign_ne by done. rewrite col_lookup_assign_eq.
  by rewrite Hc, Hd.
Qed.

Lemma clean_after_volatility_drops_first_row_witness :
  one_symbol !! "OK" = Some (price_frame growth_closes)
  ∧ wf_frame (price_frame growth_closes)
  ∧ frame_clean (price_frame growth_closes)
  ∧ col_lookup "Close" (columns (price_frame growth_closes)) = Some growth_closes
  ∧ col_lookup "Date" (columns (price_frame growth_closes))
    = Some (of_nat <$> seq 0 3)
  ∧ Forall is_price growth_closes
  ∧ clean_data one_symbol !! "OK" = Some (price_frame growth_closes)
  ∧ ∃ df',
      clean_data (calculate_volatility one_symbol).1 !! "OK" = Some df'
      ∧ idx_labels (index df')
        = tail (idx_labels (index (price_frame growth_closes)))
      ∧ col_lookup "Close" (columns df') = Some (tail growth_closes)
      ∧ col_lookup "Date" (columns df') = Some (tail (of_nat <$> seq 0 3))
      ∧ col_lookup "Daily Return" (columns df')
        = Some (tail (pct_change growth_closes)).
Proof.
  assert (wf_frame (price_frame growth_closes)) as Hwf by (repeat constructor).
  assert (frame_clean (price_frame growth_closes)) as Hclean
    by (repeat constructor).
  assert (Forall is_price growth_closes) as Hprice.
  { repeat constructor; simpl; lra. }
  split; [reflexivity|]. split; [exact Hwf|]. split; [exact Hclean|].
  do 2 (split; [reflexivity|]). split; [exact Hprice|].
  apply (clean_after_volatility_drops_first_row one_symbol "OK"
           (price_frame growth_closes) growth_closes (of_nat <$> seq 0 3));
    [reflexivity|exact Hwf|exact Hclean|reflexivity|reflexivity|exact Hprice].
Defined.

(** ** Constant prices *)

Lemma Fin_eq (x y : R) : x = y → Fin x = Fin y.
Proof. by intros ->. Qed.

Lemma INR_pos_Rsgn n : 0 < n → Rsgn (INR n) = Gt.
Proof. intros H. apply Rsgn_pos. by apply lt_0_INR. Qed.

Lemma nsum_zeros n : nsum (replicate n (Fin 0)) = Fin 0.
Proof.
  unfold nsum. induction n as [|n IH]; simpl; [done|].
  rewrite (Fin_eq (0 + 0) 0) by lra. exact IH.
Qed.

Lemma zero_over_count n : 0 < n → ndiv (Fin 0) (of_nat n) = Fin 0.
Proof.
  intros H. unfold of_nat. simpl. rewrite (INR_pos_Rsgn n H).
  apply Fin_eq. unfold Rdiv. lra.
Qed.

(** The returns of a constant price are all zero. *)
Lemma pct_change_constant p n :
  p ≠ 0%R →
  pct_change (replicate (S n) (Fin p)) = NaN :: replicate n (Fin 0).
Proof.
  intros Hp.
  assert (Forall (λ a, isnan a = false) (replicate (S n) (Fin p))) as Hnn.
  { apply Forall_replicate. done. }
  simpl in Hnn |- *. rewrite (pct_change_cons _ _ Hnn). f_equal.
  clear Hnn. induction n as [|n IH]; [done|]. simpl.
  rewrite day_return_price by done.
  rewrite (Fin_eq (p / p - 1) 0) by (by field). f_equal. exact IH.
Qed.

Lemma valid_zeros n : valid (replicate n (Fin 0)) = replicate n (Fin 0).
Proof. apply valid_id, Forall_replicate. done. Qed.

Lemma mean_zero_returns n :
  0 < n → mean (NaN :: replicate n (Fin 0)) = Fin 0.
Proof.
  intros H. unfold mean. simpl. rewrite valid_zeros.
  destruct n as [|n]; [lia|]. rewrite length_replicate.
  change (Fin 0 :: replicate n (Fin 0)) with (replicate (S n) (Fin 0)).
  rewrite nsum_zeros. by apply zero_over_count.
Qed.

Lemma std_zero_returns n :
  2 ≤ n → std (NaN :: replicate n (Fin 0)) = Fin 0.
Proof.
  intros H. unfold std, var. simpl. rewrite valid_zeros, length_replicate.
  rewrite (proj2 (Nat.leb_gt n 1)) by lia.
  rewrite nsum_zeros, zero_over_count by lia.
  rewrite fmap_replicate. simpl.
  rewrite (Fin_eq ((0 + - 0) * (0 + - 0)) 0) by lra.
  rewrite nsum_zeros, zero_over_count by lia.
  simpl. destruct (Rlt_dec 0 0); [lra|]. by rewrite sqrt_0.
Qed.

Lemma cumprod_ones acc n :
  acc = Fin 1 → cumprod_from acc (replicate n (Fin 1)) = replicate n (Fin 1).
Proof.
  intros ->. induction n as [|n IH]; [done|]. simpl.
  rewrite (Fin_eq (1 * 1) 1) by lra. by rewrite IH.
Qed.

Lemma cumulative_return_zero_returns n :
  cumulative_return (NaN :: replicate n (Fin 0)) = NaN :: replicate n (Fin 0).
Proof.
  rewrite cumulative_return_nan_cons. f_equal.
  unfold sadd_scalar, ssub_scalar. rewrite fmap_replicate. simpl.
  rewrite (Fin_eq (1 + 0) 1) by lra. rewrite cumprod_ones by done.
  rewrite fmap_replicate. simpl. by rewrite (Fin_eq (1 + - (1)) 0) by lra.
Qed.

Lemma nmax_zero acc :
  acc = NegInf ∨ acc = Fin 0 → nmax acc (Fin 0) = Fin 0.
Proof.
  intros [-> | ->]; [done|]. unfold nmax. simpl.
  by destruct (Rle_dec 0 0).
Qed.

Lemma cummax_zeros acc n :
  acc = NegInf ∨ acc = Fin 0 →
  cummax_from acc (replicate n (Fin 0)) = replicate n (Fin 0).
Proof.
  revert acc. induction n as [|n IH]; intros acc Hacc; [done|]. simpl.
  rewrite (nmax_zero acc Hacc). f_equal. apply IH. by right.
Qed.

Lemma drawdown_zero_returns n :
  let cr := NaN :: replicate n (Fin 0) in
  ssub cr (cummax cr) = NaN :: replicate n (Fin 0).
Proof.
  simpl. unfold cummax. simpl. rewrite cummax_zeros by (by left).
  unfold ssub. simpl. f_equal.
  induction n as [|n IH]; [done|]. simpl.
  rewrite (Fin_eq (0 + - 0) 0) by lra. f_equal. exact IH.
Qed.

Lemma smin_zeros n : 0 < n → smin (NaN :: replicate n (Fin 0)) = Fin 0.
Proof.
  intros H. unfold smin. simpl. rewrite valid_zeros.
  destruct n as [|n]; [lia|]. simpl. clear H.
  induction n as [|n IH]; [done|]. simpl.
  assert (nmin (Fin 0) (Fin 0) = Fin 0) as ->; [|exact IH].
  unfold nmin. simpl. by destruct (Rle_dec 0 0).
Qed.

(** X13. A symbol whose close never changes: with at least three rows its
    volatility is 0 and its Sharpe ratio is NaN (0/0), and with at least
    two rows its maximum drawdown is 0. *)
Theorem constant_price_statistics
    (data : gmap string DataFrame) (s : string) (df : DataFrame)
    (p : R) (n : nat) :
  data !! s = Some df →
  col_lookup "Close" (columns df) = Some (replicate n (Fin p)) →
  p ≠ 0%R →
  (3 ≤ n → (calculate_volatility data).2 !! s = Some (Fin 0)
           ∧ (calculate_sharpe_ratio data).2 !! s = Some NaN)
  ∧ (2 ≤ n → (calculate_max_drawdown data).2 !! s = Some (Fin 0)).
Proof.
  intros Hs Hc Hp.
  assert (∀ st, (calculate st data).2 !! s
                = Some (stat_value st (replicate n (Fin p)))) as Hval.
  { intros st. rewrite calculate_result, Hs. simpl.
    by rewrite stat_body_run, Hc. }
  split.
  - intros Hn. destruct n as [|m]; [lia|].
    split.
    + change (calculate_volatility data) with (calculate Volatility data).
      rewrite (Hval Volatility). unfold stat_value.
      rewrite (pct_change_constant p m Hp). f_equal.
      apply std_zero_returns. lia.
    + change (calculate_sharpe_ratio data) with (calculate SharpeRatio data).
      rewrite (Hval SharpeRatio). unfold stat_value.
      rewrite (pct_change_constant p m Hp). f_equal.
      rewrite mean_zero_returns, std_zero_returns by lia.
      simpl. by rewrite Rsgn_zero.
  - intros Hn. destruct n as [|m]; [lia|].
    change (calculate_max_drawdown data) with (calculate MaxDrawdown data).
    rewrite (Hval MaxDrawdown). unfold stat_value.
    rewrite (pct_change_constant p m Hp). f_equal.
    rewrite cumulative_return_zero_returns.
    rewrite (drawdown_zero_returns m). apply smin_zeros. lia.
Qed.

Lemma constant_price_statistics_witness :
  flat_symbol !! "FLAT" = Some (price_frame (replicate 3 (Fin 100)))
  ∧ col_lookup "Close" (columns (price_frame (replicate 3 (Fin 100))))
    = Some (replicate 3 (Fin 100))
  ∧ 100%R ≠ 0%R
  ∧ (3 ≤ 3 → (calculate_volatility flat_symbol).2 !! "FLAT" = Some (Fin 0)
             ∧ (calculate_sharpe_ratio flat_symbol).2 !! "FLAT" = Some NaN)
  ∧ (2 ≤ 3 → (calculate_max_drawdown flat_symbol).2 !! "FLAT" = Some (Fin 0)).
Proof.
  assert (100%R ≠ 0%R) as Hp by lra.
  do 2 (split; [reflexivity|]). split; [exact Hp|].
  apply (constant_price_statistics flat_symbol "FLAT"
           (price_frame (replicate 3 (Fin 100))) 100 3);
    [reflexivity|reflexivity|exact Hp].
Defined.

(** ** Decomposition that ends *)

Lemma col_remove_absent name cols : name ∉ cols.*1 → col_remove name cols = cols.
Proof.
  unfold col_remove. induction cols as [|[n c] cols IH]; [done|].
  rewrite fmap_cons, not_elem_of_cons. simpl. intros [Hne Hnin].
  rewrite filter_cons. simpl. rewrite decide_True by done. by rewrite IH.
Qed.

Section DecomposeRoundTrip.
Context {Decomposition : Type}.
Variable seasonal_decompose : Series → result Decomposition.
Variable plot : Decomposition → result unit.

(** X14. On a frame as [fetch_data] leaves it (rows numbered from 0, Date
    the first column and the only one of that name), a decomposition that
    ends and is drawn is returned for the symbol, and the stored frame is
    afterwards what it was before: [set_index] and [reset_index] undo each
    other and no column is added. *)
Theorem decompose_trends_restores_frame
    (data : gmap string DataFrame) (s : string) (df : DataFrame)
    (d c : Series) (rest : list (string * Series)) (dec : Decomposition) :
  data !! s = Some df →
  wf_frame df →
  index df = range_index (nrows df) →
  columns df = ("Date", d) :: rest →
  "Date" ∉ rest.*1 →
  col_lookup "Close" rest = Some c →
  seasonal_decompose c = Ok dec →
  plot dec = Ok tt →
  (decompose_trends seasonal_decompose plot data).2 !! s = Some dec
  ∧ (decompose_trends seasonal_decompose plot data).1 !! s = Some df.
Proof.
  intros Hs Hwf Hidx Hcols Hnodate Hc Hdec Hplot.
  assert (col_lookup "Date" (columns df) = Some d) as Hd by (by rewrite Hcols).
  assert (col_lookup "Close" (columns df) = Some c) as Hc'
    by (by rewrite Hcols).
  destruct (decompose_trends_success seasonal_decompose plot data s df d c dec
              Hs Hd Hc' Hdec Hplot) as [Hres Hstore].
  split; [exact Hres|]. rewrite Hstore. f_equal.
  assert (length d = nrows df) as Hlen.
  { apply (proj1 (Forall_forall _ _) Hwf ("Date", d)).
    rewrite Hcols. by left. }
  assert (col_remove "Date" (columns df) = rest) as ->.
  { rewrite Hcols. unfold col_remove. rewrite filter_cons.
    case_decide as H; [by simpl in H|]. by apply col_remove_absent. }
  rewrite Hlen, <- Hidx, <- Hcols. by destruct df.
Qed.
End DecomposeRoundTrip.

Lemma decompose_trends_restores_frame_witness :
  two_years_symbol !! "LONG" = Some (price_frame two_years)
  ∧ wf_frame (price_frame two_years)
  ∧ index (price_frame two_years) = range_index (nrows (price_frame two_years))
  ∧ columns (price_frame two_years)
    = [("Date", of_nat <$> seq 0 504); ("Close", two_years)]
  ∧ ("Date" ∉ [("Close", two_years)].*1)
  ∧ col_lookup "Close" [("Close", two_years)] = Some two_years
  ∧ two_cycles_only two_years = Ok tt
  ∧ plot_nothing tt = Ok tt
  ∧ (decompose_trends two_cycles_only plot_nothing two_years_symbol).2 !! "LONG"
    = Some tt
  ∧ (decompose_trends two_cycles_only plot_nothing two_years_symbol).1 !! "LONG"
    = Some (price_frame two_years).
Proof.
  assert (wf_frame (price_frame two_years)) as Hwf.
  { constructor; [reflexivity|]. constructor; [reflexivity|constructor]. }
  assert ("Date" ∉ (fst <$> [("Close", two_years)])) as Hnodate.
  { simpl. intros H. apply list_elem_of_singleton in H. discriminate H. }
  split; [reflexivity|]. split; [exact Hwf|]. do 2 (split; [reflexivity|]).
  split; [exact Hnodate|]. do 3 (split; [reflexivity|]).
  apply (decompose_trends_restores_frame two_cycles_only plot_nothing
           two_years_symbol "LONG" (price_frame two_years)
           (of_nat <$> seq 0 504) two_years [("Close", two_years)] tt);
    [reflexivity|exact Hwf|reflexivity|reflexivity|exact Hnodate|reflexivity..].
Defined.

(** ** What cleaning keeps *)

Lemma length_keep_rows_le {A : Type} (mask : list bool) (l : list A) :
  length (keep_rows mask l) ≤ length l.
Proof.
  revert l. induction mask as [|b mask IH]; intros [|a l]; simpl; try lia.
  specialize (IH l). destruct b; simpl; lia.
Qed.

Lemma elem_of_keep_rows_elem {A : Type} (mask : list bool) (l : list A) x :
  x ∈ keep_rows mask l → x ∈ l.
Proof.
  intros (i & _ & Hi)%elem_of_keep_rows. by eapply list_elem_of_lookup_2.
Qed.

(** A filled value is a value of the column, unless it is the NaN that
    the rows before any value keep. *)
Lemma elem_of_ffill_from last (s : Series) x :
  x ∈ ffill_from last s → x = last ∨ x ∈ s.
Proof.
  revert last. induction s as [|a s IH]; intros last; simpl.
  - by intros ?%not_elem_of_nil.
  - intros [->|H]%elem_of_cons.
    + destruct (isnan a); [by left|right; by left].
    + destruct (IH _ H) as [->|Hin]; [|right; by right].
      destruct (isnan a); [by left|right; by left].
Qed.

(** X15. [clean_data] keeps a well-formed frame well formed, keeps its
    columns, their names and their order, and the name of its index; it
    never adds a row; and a frame without a Date column is left exactly as
    it was, missing values included, because the body raises at its first
    statement. *)
Theorem clean_data_keeps_the_shape
    (data : gmap string DataFrame) (s : string) (df : DataFrame) :
  data !! s = Some df →
  wf_frame df →
  ∃ df',
    clean_data data !! s = Some df'
    ∧ wf_frame df'
    ∧ col_names df' = col_names df
    ∧ idx_name (index df') = idx_name (index df)
    ∧ nrows df' ≤ nrows df
    ∧ (col_lookup "Date" (columns df) = None → df' = df).
Proof.
  intros Hs Hwf. exists (clean_body df).1.
  split; [by rewrite clean_data_lookup, Hs|].
  destruct (col_lookup "Date" (columns df)) as [d|] eqn:Hd.
  - rewrite (clean_body_ok df d Hd). simpl.
    split; [by apply wf_dropna, wf_fillna_ffill|].
    split.
    { unfold col_names. simpl. rewrite <- !list_fmap_compose.
      by apply list_fmap_ext. }
    split; [done|]. split; [|done].
    unfold nrows. simpl. apply length_keep_rows_le.
  - rewrite (clean_body_no_date df Hd). simpl. repeat split; done.
Qed.

Lemma clean_data_keeps_the_shape_witness :
  gap_symbol !! "GAP" = Some gap_frame
  ∧ wf_frame gap_frame
  ∧ ∃ df',
      clean_data gap_symbol !! "GAP" = Some df'
      ∧ wf_frame df'
      ∧ col_names df' = col_names gap_frame
      ∧ idx_name (index df') = idx_name (index gap_frame)
      ∧ nrows df' ≤ nrows gap_frame
      ∧ (col_lookup "Date" (columns gap_frame) = None → df' = gap_frame).
Proof.
  assert (wf_frame gap_frame) as Hwf by (repeat constructor).
  split; [reflexivity|]. split; [exact Hwf|].
  apply (clean_data_keeps_the_shape gap_symbol "GAP" gap_frame);
    [reflexivity|exact Hwf].
Defined.

(** X16. [clean_data] invents no value: in a frame that has been cleaned
    every cell of a column is a cell, not missing, of the same column before
    the cleaning. *)
Theorem clean_data_invents_no_value
    (data : gmap string DataFrame) (s : string) (df : DataFrame) (d : Series)
    (name : string) (col : Series) :
  data !! s = Some df →
  col_lookup "Date" (columns df) = Some d →
  col_lookup name (columns df) = Some col →
  ∃ df' col',
    clean_data data !! s = Some df'
    ∧ col_lookup name (columns df') = Some col'
    ∧ ∀ x, x ∈ col' → x ∈ col ∧ isnan x = false.
Proof.
  intros Hs Hd Hcol.
  set (mask := dropna_mask (fillna_ffill_frame df)).
  exists (dropna_frame (fillna_ffill_frame df)), (keep_rows mask (ffill col)).
  split; [by rewrite clean_data_lookup, Hs; simpl; rewrite (clean_body_ok df d Hd)|].
  assert (col_lookup name (columns (dropna_frame (fillna_ffill_frame df)))
          = Some (keep_rows mask (ffill col))) as Hcol'.
  { simpl. fold mask.
    rewrite (col_lookup_fmap (keep_rows mask)), (col_lookup_fmap ffill).
    by rewrite Hcol. }
  split; [exact Hcol'|]. intros x Hx.
  assert (isnan x = false) as Hnan.
  { pose proof (dropna_frame_clean (fillna_ffill_frame df)) as Hclean.
    pose proof (proj1 (Forall_forall _ _) Hclean _ (col_lookup_elem _ _ _ Hcol'))
      as Hc. simpl in Hc.
    exact (proj1 (Forall_forall _ _) Hc x Hx). }
  split; [|exact Hnan].
  apply elem_of_keep_rows_elem in Hx. unfold ffill in Hx.
  apply elem_of_ffill_from in Hx as [->|Hin]; [done|exact Hin].
Qed.

Lemma clean_data_invents_no_value_witness :
  gap_symbol !! "GAP" = Some gap_frame
  ∧ col_lookup "Date" (columns gap_frame) = Some (of_nat <$> seq 0 3)
  ∧ col_lookup "Close" (columns gap_frame) = Some [Fin 100; NaN; Fin 102]
  ∧ ∃ df' col',
      clean_data gap_symbol !! "GAP" = Some df'
      ∧ col_lookup "Close" (columns df') = Some col'
      ∧ ∀ x, x ∈ col' → x ∈ [Fin 100; NaN; Fin 102] ∧ isnan x = false.
Proof.
  do 3 (split; [reflexivity|]).
  apply (clean_data_invents_no_value gap_symbol "GAP" gap_frame
           (of_nat <$> seq 0 3) "Close" [Fin 100; NaN; Fin 102]); reflexivity.
Defined.

(** ** The rows of a moving average *)

Lemma window_at_fmap (f : num → num) w i (s : Series) :
  window_at w i (f <$> s) = f <$> window_at w i s.
Proof. unfold window_at. by rewrite fmap_take, fmap_drop. Qed.

Lemma inf_to_nan_fin (xs : list R) : inf_to_nan <$> (Fin <$> xs) = Fin <$> xs.
Proof. rewrite <- list_fmap_compose. by apply list_fmap_ext. Qed.

Lemma all_fin_notnan (xs : list R) :
  forallb (λ a, negb (isnan a)) (Fin <$> xs) = true.
Proof. induction xs as [|x xs IH]; simpl; [done|exact IH]. Qed.

Lemma window_with_nan (win : Series) :
  NaN ∈ win → forallb (λ a, negb (isnan a)) (inf_to_nan <$> win) = false.
Proof.
  intros Hin. apply not_true_is_false. intros Hall.
  rewrite forallb_forall in Hall.
  specialize (Hall NaN). simpl in Hall. apply diff_false_true, Hall.
  apply list_elem_of_In. apply list_elem_of_fmap. by exists NaN.
Qed.

(** X17. The moving-average column of window [W >= 1] has one row per
    close.  A row before the [W]-th has no value; a later row whose window
    of [W] closes is finite holds the sum of the window over [W]; and a
    later row whose window has a missing close has no value. *)
Theorem moving_average_rows
    (window : nat) (data : gmap string DataFrame) (s : string)
    (df : DataFrame) (c : Series) :
  data !! s = Some df →
  col_lookup "Close" (columns df) = Some c →
  0 < window →
  ∃ ma,
    (calculate_moving_average window data !! s)
      ≫= (λ df', col_lookup (ma_name window) (columns df')) = Some ma
    ∧ length ma = length c
    ∧ (∀ i, i < length c → S i < window → ma !! i = Some NaN)
    ∧ (∀ i xs, i < length c → window ≤ S i →
         window_at window i c = Fin <$> xs →
         ma !! i = Some (Fin (rsum xs / INR window)))
    ∧ (∀ i, i < length c → window ≤ S i → NaN ∈ window_at window i c →
         ma !! i = Some NaN).
Proof.
  intros Hs Hc Hw. exists (rolling_mean window c). split.
  { unfold calculate_moving_average. rewrite for_each_symbol_store, Hs. simpl.
    rewrite (moving_average_body_ok window df c Hc). simpl.
    apply col_lookup_assign_eq. }
  split; [unfold rolling_mean; apply length_imap|].
  assert (∀ i, i < length c → ∃ a, c !! i = Some a) as Hrow.
  { intros i Hi. by apply lookup_lt_is_Some_2. }
  split; [|split].
  - intros i Hi Hlt. destruct (Hrow i Hi) as [a Ha].
    unfold rolling_mean. rewrite list_lookup_imap, Ha. simpl.
    by rewrite (proj2 (Nat.ltb_lt _ _) Hlt).
  - intros i xs Hi Hge Hwin. destruct (Hrow i Hi) as [a Ha].
    unfold rolling_mean. rewrite list_lookup_imap, Ha. simpl.
    rewrite (proj2 (Nat.ltb_ge _ _) Hge).
    rewrite window_at_fmap, Hwin, inf_to_nan_fin, all_fin_notnan.
    f_equal. unfold nsum. rewrite nsum_fin_from. unfold of_nat.
    rewrite ndiv_fin; [done|]. apply not_0_INR. lia.
  - intros i Hi Hge Hnan. destruct (Hrow i Hi) as [a Ha].
    unfold rolling_mean. rewrite list_lookup_imap, Ha. simpl.
    rewrite (proj2 (Nat.ltb_ge _ _) Hge).
    by rewrite window_at_fmap, (window_with_nan _ Hnan).
Qed.

Lemma moving_average_rows_witness :
  one_symbol !! "OK" = Some (price_frame growth_closes)
  ∧ col_lookup "Close" (columns (price_frame growth_closes)) = Some growth_closes
  ∧ 0 < 2
  ∧ ∃ ma,
      (calculate_moving_average 2 one_symbol !! "OK")
        ≫= (λ df', col_lookup (ma_name 2) (columns df')) = Some ma
      ∧ length ma = length growth_closes
      ∧ (∀ i, i < length growth_closes → S i < 2 → ma !! i = Some NaN)
      ∧ (∀ i xs, i < length growth_closes → 2 ≤ S i →
           window_at 2 i growth_closes = Fin <$> xs →
           ma !! i = Some (Fin (rsum xs / INR 2)))
      ∧ (∀ i, i < length growth_closes → 2 ≤ S i →
           NaN ∈ window_at 2 i growth_closes → ma !! i = Some NaN).
Proof.
  assert (0 < 2) as Hw by lia.
  do 2 (split; [reflexivity|]). split; [exact Hw|].
  apply (moving_average_rows 2 one_symbol "OK" (price_frame growth_closes)
           growth_closes); [reflexivity|reflexivity|exact Hw].
Defined.

(** ** Several moving averages *)

Lemma to_uint_nonnil n : Nat.to_uint n ≠ Decimal.Nil.
Proof.
  rewrite <- (DecimalNat.Unsigned.of_to n) at 1.
  rewrite DecimalNat.Unsigned.to_of. apply DecimalFacts.unorm_nonnil.
Qed.

(** Different windows have different column names. *)
Lemma ma_name_inj w1 w2 : ma_name w1 = ma_name w2 → w1 = w2.
Proof.
  unfold ma_name. intros H. apply append_inv_tail in H.
  apply (f_equal NilZero.uint_of_string) in H.
  rewrite !NilZero.usu in H by apply to_uint_nonnil.
  injection H as H. by apply DecimalNat.Unsigned.to_uint_inj.
Qed.

(** X18. Moving averages of different windows stand side by side: after
    [calculate_moving_average] with one window and then with another, the
    frame holds the column of each, computed from the same closes, and
    Close itself is unchanged.  With the same window the second call
    changes nothing. *)
Theorem moving_averages_coexist
    (w1 w2 : nat) (data : gmap string DataFrame) (s : string)
    (df : DataFrame) (c : Series) :
  data !! s = Some df →
  col_lookup "Close" (columns df) = Some c →
  w1 ≠ w2 →
  calculate_moving_average w1 (calculate_moving_average w1 data)
    = calculate_moving_average w1 data
  ∧ ∃ df',
      calculate_moving_average w2 (calculate_moving_average w1 data) !! s
        = Some df'
      ∧ col_lookup (ma_name w1) (columns df') = Some (rolling_mean w1 c)
      ∧ col_lookup (ma_name w2) (columns df') = Some (rolling_mean w2 c)
      ∧ col_lookup "Close" (columns df') = Some c.
Proof.
  intros Hs Hc Hne. split.
  - apply map_eq. intros k. unfold calculate_moving_average.
    rewrite !for_each_symbol_store.
    destruct (data !! k) as [df0|]; [|done]. simpl. f_equal.
    destruct (col_lookup "Close" (columns df0)) as [c0|] eqn:Hc0.
    + rewrite (moving_average_body_ok w1 df0 c0 Hc0). simpl.
      assert (col_lookup "Close"
                (col_assign (ma_name w1) (rolling_mean w1 c0) (columns df0))
              = Some c0) as Hc1.
      { rewrite col_lookup_assign_ne; [done|apply ma_name_not_close]. }
      rewrite (moving_average_body_ok w1
                 (mkFrame (index df0)
                    (col_assign (ma_name w1) (rolling_mean w1 c0) (columns df0)))
                 c0 Hc1).
      simpl. f_equal. apply col_assign_same, col_lookup_assign_eq.
    + assert (moving_average_body w1 df0 = (df0, Raise (KeyError "Close")))
        as Hraise.
      { unfold moving_average_body, bind, getitem. by rewrite Hc0. }
      rewrite Hraise. simpl. by rewrite Hraise.
  - unfold calculate_moving_average. rewrite !for_each_symbol_store, Hs. simpl.
    rewrite (moving_average_body_ok w1 df c Hc). simpl.
    assert (col_lookup "Close"
              (col_assign (ma_name w1) (rolling_mean w1 c) (columns df))
            = Some c) as Hc1.
    { rewrite col_lookup_assign_ne; [done|apply ma_name_not_close]. }
    rewrite (moving_average_body_ok w2
               (mkFrame (index df)
                  (col_assign (ma_name w1) (rolling_mean w1 c) (columns df)))
               c Hc1).
    simpl. eexists. split; [done|]. simpl.
    assert (ma_name w2 ≠ ma_name w1) as Hnames.
    { intros H. apply ma_name_inj in H. congruence. }
    rewrite col_lookup_assign_ne by done.
    rewrite !col_lookup_assign_eq.
    rewrite col_lookup_assign_ne by apply ma_name_not_close.
    by rewrite Hc1.
Qed.

Lemma moving_averages_coexist_witness :
  one_symbol !! "OK" = Some (price_frame growth_closes)
  ∧ col_lookup "Close" (columns (price_frame growth_closes)) = Some growth_closes
  ∧ 20 ≠ 50
  ∧ calculate_moving_average 20 (calculate_moving_average 20 one_symbol)
    = calculate_moving_average 20 one_symbol
  ∧ ∃ df',
      calculate_moving_average 50 (calculate_moving_average 20 one_symbol) !! "OK"
        = Some df'
      ∧ col_lookup (ma_name 20) (columns df') = Some (rolling_mean 20 growth_closes)
      ∧ col_lookup (ma_name 50) (columns df') = Some (rolling_mean 50 growth_closes)
      ∧ col_lookup "Close" (columns df') = Some growth_closes.
Proof.
  assert (20 ≠ 50) as Hne by lia.
  do 2 (split; [reflexivity|]). split; [exact Hne|].
  apply (moving_averages_coexist 20 50 one_symbol "OK"
           (price_frame growth_closes) growth_closes);
    [reflexivity|reflexivity|exact Hne].
Defined.
